(** * create-opencode-workspace: the scaffolding CLI [bin/cli.js]

    A shallow embedding of the single-file CLI and of the parts of its
    runtime it calls (Node's POSIX [path] module, the [prompts] question
    loop, [fs.existsSync] and fs-extra's [copy]), followed by the
    properties of [init] that the specification states.

    Conventions.  Paths are strings, as in the code.  The filesystem is a
    tree of directories and files; a run threads a state made of the
    filesystem and of the chronological trace of observable events.
    Terminal styling (picocolors), emoji and blank lines in messages are
    elided: a message is its text. *)

From Stdlib Require Import Ascii String.
From stdpp Require Import gmap strings list.

(** ** Node's [path] module (POSIX flavour) *)

Module Path.

(** [s.split('/')]: the pieces between separators, empty ones included. *)
Fixpoint split_slash (s : string) : list string :=
  match s with
  | EmptyString => [EmptyString]
  | String c rest =>
      if Ascii.eqb c "/" then EmptyString :: split_slash rest
      else match split_slash rest with
           | seg :: segs => String c seg :: segs
           | [] => [String c EmptyString]
           end
  end.

(** [segs.join('/')]. *)
Definition join_slash (segs : list string) : string := String.concat "/" segs.

(** One segment of [normalizeString]; [res] is the result so far, last
    segment first.  Empty and [.] segments are skipped, [..] removes the
    last segment (or is kept when the path may climb above its start). *)
Definition normalize_step (allowAboveRoot : bool) (res : list string) (seg : string)
  : list string :=
  if String.eqb seg "" || String.eqb seg "." then res
  else if String.eqb seg ".." then
    match res with
    | last :: before =>
        if String.eqb last ".." then (if allowAboveRoot then ".." :: res else res)
        else before
    | [] => if allowAboveRoot then [".."] else []
    end
  else seg :: res.

Definition normalize_segments (allowAboveRoot : bool) (segs : list string) : list string :=
  rev (fold_left (normalize_step allowAboveRoot) segs []).

(** [normalizeString(path, allowAboveRoot, '/', isPosixPathSeparator)]. *)
Definition normalizeString (path : string) (allowAboveRoot : bool) : string :=
  join_slash (normalize_segments allowAboveRoot (split_slash path)).

Definition is_absolute (p : string) : bool :=
  match p with
  | String c _ => Ascii.eqb c "/"
  | EmptyString => false
  end.

(** The right-to-left loop of [posix.resolve]: arguments are prepended
    until one of them is absolute; empty arguments are skipped.  [paths]
    lists the candidates in visiting order (last argument first, the
    working directory last). *)
Fixpoint resolve_loop (paths : list string) (resolvedPath : string) : string * bool :=
  match paths with
  | [] => (resolvedPath, false)
  | path :: before =>
      if String.eqb path "" then resolve_loop before resolvedPath
      else
        let resolvedPath := path +:+ "/" +:+ resolvedPath in
        if is_absolute path then (resolvedPath, true)
        else resolve_loop before resolvedPath
  end.

(** [path.resolve(...args)], with [cwd] the value of [process.cwd()]. *)
Definition resolve (cwd : string) (args : list string) : string :=
  let '(resolvedPath, resolvedAbsolute) := resolve_loop (rev args ++ [cwd]) "" in
  let normalized := normalizeString resolvedPath (negb resolvedAbsolute) in
  if resolvedAbsolute then "/" +:+ normalized
  else if String.eqb normalized "" then "." else normalized.

(** The backward scan of [posix.dirname] over the characters after the
    first one, given last character first: trailing separators are
    skipped, then the last segment; what is left before the separator
    that ends the scan is returned (still reversed). *)
Fixpoint dirname_scan (matchedSlash : bool) (rev_tail : list ascii) : option (list ascii) :=
  match rev_tail with
  | [] => None
  | c :: before =>
      if Ascii.eqb c "/" then
        if matchedSlash then dirname_scan true before else Some before
      else dirname_scan false before
  end.

(** [path.dirname(path)]. *)
Definition dirname (path : string) : string :=
  match path with
  | EmptyString => "."
  | String c0 tail =>
      let hasRoot := Ascii.eqb c0 "/" in
      match dirname_scan true (rev (list_ascii_of_string tail)) with
      | None => if hasRoot then "/" else "."
      | Some [] => if hasRoot then "//" else String c0 EmptyString
      | Some kept => String c0 (string_of_list_ascii (rev kept))
      end
  end.

(** The directory names the kernel walks for a path, from the root. *)
Definition segments (p : string) : list string :=
  normalize_segments false (split_slash p).

End Path.

(** ** Paths in normal form *)

(** No separator inside. *)
Fixpoint slash_free (s : string) : bool :=
  match s with
  | EmptyString => true
  | String c rest => negb (Ascii.eqb c "/") && slash_free rest
  end.

(** A segment as it stands in a normalized absolute path. *)
Definition plain (seg : string) : Prop :=
  slash_free seg = true ∧ seg ≠ "" ∧ seg ≠ "." ∧ seg ≠ "..".

(** An absolute path in normal form: [/] followed by plain segments. *)
Definition canonical (p : string) : Prop :=
  ∃ stack, Forall plain stack ∧ p = "/" +:+ Path.join_slash stack.

(** ** The filesystem *)

(** A filesystem entry: a regular file with its bytes, or a directory with
    its named entries.  The filesystem is the root directory. *)
#[warnings="-register-all"]
Inductive node :=
| File (content : list Byte.byte)
| Dir (entries : gmap string node).

Definition is_dir (n : node) : bool :=
  match n with Dir _ => true | File _ => false end.

(** Walk down from [t] along the names [p]. *)
Fixpoint fs_lookup (t : node) (p : list string) : option node :=
  match p with
  | [] => Some t
  | name :: rest =>
      match t with
      | File _ => None
      | Dir entries =>
          match entries !! name with
          | Some child => fs_lookup child rest
          | None => None
          end
      end
  end.

(** [fs.existsSync(p)]. *)
Definition fs_exists (root : node) (p : string) : bool :=
  bool_decide (is_Some (fs_lookup root (Path.segments p))).

(** Copying [src] over an existing [dst] (fs-extra's default
    [overwrite: true]): files are replaced, directories are merged entry
    by entry; a directory cannot replace a file nor a file a directory. *)
Fixpoint clash (src dst : node) : bool :=
  match src, dst with
  | File _, File _ => false
  | Dir es, Dir ed =>
      map_fold (fun name s acc =>
                  acc || match ed !! name with
                         | Some d => clash s d
                         | None => false
                         end) false es
  | _, _ => true
  end.

Fixpoint overlay (src dst : node) : node :=
  match src, dst with
  | Dir es, Dir ed =>
      Dir (merge (fun s d =>
                    match s, d with
                    | Some s, Some d => Some (overlay s d)
                    | Some s, None => Some s
                    | None, d => d
                    end) es ed)
  | _, _ => src
  end.

(** The chain of fresh directories [p] leading to [new]. *)
Fixpoint mk_chain (p : list string) (new : node) : node :=
  match p with
  | [] => new
  | name :: rest => Dir {[ name := mk_chain rest new ]}
  end.

(** Place [new] at [p] under [t], creating the missing directories on the
    way (fs-extra's [mkdirs] of the parent).  Fails when a name on the way
    is a regular file, or when [new] clashes with what is already at [p]. *)
Fixpoint fs_put (p : list string) (new t : node) : option node :=
  match p with
  | [] => if clash new t then None else Some (overlay new t)
  | name :: rest =>
      match t with
      | File _ => None
      | Dir entries =>
          match entries !! name with
          | Some child =>
              match fs_put rest new child with
              | Some child' => Some (Dir (<[name := child']> entries))
              | None => None
              end
          | None => Some (Dir (<[name := mk_chain rest new]> entries))
          end
      end
  end.

(** An I/O error striking the transfer (permission denied, disk full,
    unreadable entry): its message and what the interrupted transfer has
    left at the destination, if anything.  Chosen by the environment. *)
Record fault := { fault_error : string; fault_written : option node }.

(** fs-extra's [copy(src, dest)] on a filesystem: the new filesystem and
    the error thrown, if any.  The source must exist; a directory is not
    copied into itself; then the tree at [src] is written at [dest]. *)
Definition copy_tree (flt : option fault) (src dest : string) (root : node)
  : node * option string :=
  let s := Path.segments src in
  let d := Path.segments dest in
  match fs_lookup root s with
  | None => (root, Some ("ENOENT: no such file or directory, lstat " +:+ src))
  | Some tree =>
      if bool_decide (s = d) then
        (root, Some "Source and destination must not be the same.")
      else if is_dir tree && bool_decide (s `prefix_of` d) then
        (root, Some ("Cannot copy " +:+ src +:+ " to a subdirectory of itself, " +:+ dest))
      else
        match flt with
        | Some f =>
            (match fault_written f with
             | Some part => default root (fs_put d part root)
             | None => root
             end, Some (fault_error f))
        | None =>
            match fs_put d tree root with
            | Some root' => (root', None)
            | None => (root, Some ("ENOTDIR: cannot create " +:+ dest))
            end
        end
  end.

(** A boolean reading of "no regular file stands on the way to [p]". *)
Fixpoint way_is_clear (t : node) (p : list string) : bool :=
  match t with
  | File _ => false
  | Dir entries =>
      match p with
      | [] => true
      | name :: rest =>
          match entries !! name with
          | Some child => way_is_clear child rest
          | None => true
          end
      end
  end.

(** Number of regular files in a tree. *)
Fixpoint file_count (n : node) : nat :=
  match n with
  | File _ => 1
  | Dir entries => map_fold (λ _ child acc, acc + file_count child) 0 entries
  end.

(** ** Runs: state, events and the effect monad *)

Inductive event :=
| Stdout (line : string)                      (* console.log *)
| Stderr (line : string)                      (* console.error *)
| Asked (name : string)                       (* a question put to the user *)
| ExistsSync (p : string) (found : bool)      (* fs.existsSync(p) *)
| Copy (src dest : string) (error : option string).  (* fs.copy(src, dest) *)

Record state := { st_fs : node; st_trace : list event }.

Definition emit (ev : event) (st : state) : state :=
  {| st_fs := st_fs st; st_trace := st_trace st ++ [ev] |}.

(** How a computation ends: normally, by [process.exit(code)], or with an
    exception (a rejected promise) still propagating. *)
Inductive completion (A : Type) :=
| Normal (a : A)
| Exit (code : nat)
| Throw (err : string).
Arguments Normal {A} a.
Arguments Exit {A} code.
Arguments Throw {A} err.

Definition M (A : Type) : Type := state -> completion A * state.

Definition ret {A} (a : A) : M A := fun st => (Normal a, st).

Definition bind {A B} (m : M A) (k : A -> M B) : M B :=
  fun st =>
    match m st with
    | (Normal a, st') => k a st'
    | (Exit code, st') => (Exit code, st')
    | (Throw err, st') => (Throw err, st')
    end.

Notation "x <- m ;; k" := (bind m (fun x => k))
  (at level 100, m at next level, right associativity).
Notation "m ;;; k" := (bind m (fun _ => k))
  (at level 100, right associativity).

(** [try { body } catch (err) { handler }]: only exceptions are caught. *)
Definition try_catch {A} (body : M A) (handler : string -> M A) : M A :=
  fun st =>
    match body st with
    | (Throw err, st') => handler err st'
    | r => r
    end.

Definition console_log (line : string) : M unit :=
  fun st => (Normal tt, emit (Stdout line) st).

Definition console_error (line : string) : M unit :=
  fun st => (Normal tt, emit (Stderr line) st).

Definition process_exit {A} (code : nat) : M A :=
  fun st => (Exit code, st).

Definition existsSync (p : string) : M bool :=
  fun st =>
    let found := fs_exists (st_fs st) p in
    (Normal found, emit (ExistsSync p found) st).

Definition fs_copy (flt : option fault) (src dest : string) : M unit :=
  fun st =>
    match copy_tree flt src dest (st_fs st) with
    | (root', None) =>
        (Normal tt, {| st_fs := root'; st_trace := st_trace st ++ [Copy src dest None] |})
    | (root', Some err) =>
        (Throw err, {| st_fs := root'; st_trace := st_trace st ++ [Copy src dest (Some err)] |})
    end.

(** ** The [prompts] question loop *)

Inductive question :=
| Select (name message : string) (choices : list (string * string)) (* title, value *)
| Text (name message initial : string).

(** What the user does at a select prompt: abort (Ctrl-C, Esc), or move
    the highlight down [downs] times (it wraps around) and press Enter.
    The user sits at a terminal, where every question ends in one of these
    two ways; a standard input that ends before an answer, on which the
    promise of [prompts] never settles, is not covered. *)
Inductive select_input := SelectAbort | SelectEnter (downs : nat).

(** What the user does at a text prompt: abort, or press Enter on the
    line [typed]. *)
Inductive text_input := TextAbort | TextEnter (typed : string).

(** The user, asked by question name. *)
Record user := {
  on_select : string -> select_input;
  on_text : string -> text_input
}.

(** [prompts(questions)]: the questions are asked in order and each
    answer is stored under the question's name; an aborted question ends
    the loop at once with the answers collected so far (no [onCancel]
    handler is installed).  A text prompt submitted empty yields its
    [initial] value. *)
Fixpoint prompts_loop (u : user) (qs : list question) (answers : gmap string string)
  : M (gmap string string) :=
  match qs with
  | [] => ret answers
  | Select name _ choices :: rest =>
      fun st =>
        let st := emit (Asked name) st in
        match on_select u name with
        | SelectAbort => (Normal answers, st)
        | SelectEnter downs =>
            match choices !! (downs `mod` length choices) with
            | Some (_, value) => prompts_loop u rest (<[name := value]> answers) st
            | None => prompts_loop u rest answers st
            end
        end
  | Text name _ initial :: rest =>
      fun st =>
        let st := emit (Asked name) st in
        match on_text u name with
        | TextAbort => (Normal answers, st)
        | TextEnter typed =>
            let value := if String.eqb typed "" then initial else typed in
            prompts_loop u rest (<[name := value]> answers) st
        end
  end.

Definition prompts (u : user) (qs : list question) : M (gmap string string) :=
  prompts_loop u qs ∅.

(** ** [bin/cli.js] *)

(** The environment of one invocation. *)
Record env := {
  script_file : string;        (* __filename = fileURLToPath(import.meta.url) *)
  cwd : string;                (* process.cwd() *)
  usr : user;                  (* whoever sits at the terminal *)
  transfer_fault : option fault (* the I/O error of this run's transfer, if any *)
}.

(** [const __dirname = path.dirname(__filename)]. *)
Definition __dirname (e : env) : string := Path.dirname (script_file e).

(** The choices of the template question: title and value. *)
Definition template_choices : list (string * string) :=
  [ ("Content Creator (Blog, Social Media, Audits)", "content-creator") ].

Definition questions : list question :=
  [ Select "template" "Which OpenCode workspace template would you like to use?"
      template_choices;
    Text "projectName" "Project name:" "my-opencode-workspace" ].

(** A JavaScript value used as a condition: [undefined] and the empty
    string are falsy; a truthy field is its string. *)
Definition truthy (v : option string) : option string :=
  match v with
  | Some s => if String.eqb s "" then None else Some s
  | None => None
  end.

Definition dquote : string := String "034"%char EmptyString.

Definition msg_welcome : string := "Welcome to OpenCode Workspace Scaffold CLI!".
Definition msg_cancelled : string := "Initialization cancelled.".
Definition msg_exists (projectName : string) : string :=
  "Error: Directory " +:+ dquote +:+ projectName +:+ dquote +:+ " already exists.".
Definition msg_creating (targetDir : string) : string :=
  "Creating workspace in " +:+ targetDir +:+ "...".
Definition msg_created : string := "Workspace successfully created!".
Definition msg_failed (err : string) : string :=
  "Failed to copy template files: " +:+ err.

(** Lines 45-56: the announcement, then the copy inside [try]/[catch]. *)
Definition transfer (e : env) (templateDir targetDir projectName : string) : M unit :=
  console_log (msg_creating targetDir) ;;;
  try_catch
    (fs_copy (transfer_fault e) templateDir targetDir ;;;
     console_log msg_created ;;;
     console_log "Next steps:" ;;;
     console_log ("  cd " +:+ projectName) ;;;
     console_log "  opencode")
    (fun err => console_error (msg_failed err)).

(** [path.resolve(process.cwd(), response.projectName)]. *)
Definition targetDir (e : env) (projectName : string) : string :=
  Path.resolve (cwd e) [cwd e; projectName].

(** [path.resolve(__dirname, '../templates', response.template)]. *)
Definition templateDir (e : env) (template : string) : string :=
  Path.resolve (cwd e) [__dirname e; "../templates"; template].

(** Lines 32-56: what [init] does with the answers. *)
Definition scaffold (e : env) (response : gmap string string) : M unit :=
  match truthy (response !! "template"), truthy (response !! "projectName") with
  | Some template, Some projectName =>
      let targetDir := targetDir e projectName in
      let templateDir := templateDir e template in
      found <- existsSync targetDir ;;
      if found then
        console_log (msg_exists projectName) ;;;
        process_exit 1
      else
        transfer e templateDir targetDir projectName
  | _, _ =>
      console_log msg_cancelled ;;;
      process_exit 1
  end.

(** [async function init()]. *)
Definition init (e : env) : M unit :=
  console_log msg_welcome ;;;
  response <- prompts (usr e) questions ;;
  scaffold e response.

(** Lines 59-62: [init().catch((e) => { console.error(e); process.exit(1) })]. *)
Definition main (e : env) : M unit :=
  try_catch (init e) (fun err => console_error err ;;; process_exit 1).

(** The exit status of the process: the code given to [process.exit], or
    0 when the script runs to its end. *)
Definition exit_status {A} (c : completion A) : nat :=
  match c with
  | Normal _ => 0
  | Exit code => code
  | Throw _ => 1
  end.

(** A whole invocation from the filesystem [root]: exit status,
    filesystem left behind, trace. *)
Definition run (e : env) (root : node) : nat * node * list event :=
  let '(c, st) := main e {| st_fs := root; st_trace := [] |} in
  (exit_status c, st_fs st, st_trace st).

Definition run_status (e : env) (root : node) : nat := (run e root).1.1.
Definition run_fs (e : env) (root : node) : node := (run e root).1.2.
Definition run_trace (e : env) (root : node) : list event := (run e root).2.

(** ** Observations on runs *)

(** The value a submitted name prompt returns for the line [typed]. *)
Definition destination_name (typed : string) : string :=
  if String.eqb typed "" then "my-opencode-workspace" else typed.

(** The events up to the existence check, for the name [name]. *)
Definition preamble (e : env) (name : string) (found : bool) : list event :=
  [ Stdout msg_welcome; Asked "template"; Asked "projectName";
    ExistsSync (targetDir e name) found ].

(** The five ways an invocation goes: exit status, filesystem left
    behind and trace, by what the user does and what the filesystem
    holds. *)
Inductive outcome (e : env) (root : node) : nat → node → list event → Prop :=
| CancelledAtTemplate :
    on_select (usr e) "template" = SelectAbort →
    outcome e root 1 root
      [ Stdout msg_welcome; Asked "template"; Stdout msg_cancelled ]
| CancelledAtName downs :
    on_select (usr e) "template" = SelectEnter downs →
    on_text (usr e) "projectName" = TextAbort →
    outcome e root 1 root
      [ Stdout msg_welcome; Asked "template"; Asked "projectName";
        Stdout msg_cancelled ]
| TargetExists downs typed :
    on_select (usr e) "template" = SelectEnter downs →
    on_text (usr e) "projectName" = TextEnter typed →
    fs_exists root (targetDir e (destination_name typed)) = true →
    outcome e root 1 root
      (preamble e (destination_name typed) true
         ++ [ Stdout (msg_exists (destination_name typed)) ])
| Created downs typed root' :
    on_select (usr e) "template" = SelectEnter downs →
    on_text (usr e) "projectName" = TextEnter typed →
    fs_exists root (targetDir e (destination_name typed)) = false →
    copy_tree (transfer_fault e) (templateDir e "content-creator")
      (targetDir e (destination_name typed)) root = (root', None) →
    outcome e root 0 root'
      (preamble e (destination_name typed) false
         ++ [ Stdout (msg_creating (targetDir e (destination_name typed)));
              Copy (templateDir e "content-creator")
                (targetDir e (destination_name typed)) None;
              Stdout msg_created; Stdout "Next steps:";
              Stdout ("  cd " +:+ destination_name typed); Stdout "  opencode" ])
| TransferFailed downs typed root' err :
    on_select (usr e) "template" = SelectEnter downs →
    on_text (usr e) "projectName" = TextEnter typed →
    fs_exists root (targetDir e (destination_name typed)) = false →
    copy_tree (transfer_fault e) (templateDir e "content-creator")
      (targetDir e (destination_name typed)) root = (root', Some err) →
    outcome e root 0 root'
      (preamble e (destination_name typed) false
         ++ [ Stdout (msg_creating (targetDir e (destination_name typed)));
              Copy (templateDir e "content-creator")
                (targetDir e (destination_name typed)) (Some err);
              Stderr (msg_failed err) ]).

(** Space, tab, line feed, carriage return. *)
Definition is_space (c : ascii) : bool :=
  Ascii.eqb c " " || Ascii.eqb c "009" || Ascii.eqb c "010" || Ascii.eqb c "013".

(** Empty, or made of blanks only (what [s.trim() === ''] tests). *)
Fixpoint whitespace_only (s : string) : bool :=
  match s with
  | EmptyString => true
  | String c rest => is_space c && whitespace_only rest
  end.

(** The events that touch the filesystem. *)
Definition is_fs_event (ev : event) : bool :=
  match ev with
  | ExistsSync _ _ | Copy _ _ _ => true
  | _ => false
  end.

Definition fs_events (t : list event) : list event := List.filter is_fs_event t.

Definition is_ask (name : string) (ev : event) : bool :=
  match ev with
  | Asked n => String.eqb n name
  | _ => false
  end.

(** How many times the question [name] was put to the user. *)
Definition times_asked (name : string) (t : list event) : nat :=
  length (List.filter (is_ask name) t).


(** ** The template registry *)





(** * A sample installation *)

Definition bytes (s : string) : list Byte.byte := String.list_byte_of_string s.

(** A cut-down [templates/content-creator]. *)
Definition sample_template : node :=
  Dir {[ "AGENTS.md" := File (bytes "# Content Creator Workspace");
         ".opencode" :=
           Dir {[ "commands" := Dir {[ "draft.md" := File (bytes "# Draft Command");
                                       "audit.md" := File (bytes "# Audit Command") ]} ]} ]}.

(** The package installed under [/pkg]; a home directory [/home/u] holding
    a regular file [notes] and a directory [old]. *)
Definition sample_root : node :=
  Dir {[ "pkg" := Dir {[ "bin" := Dir {[ "cli.js" := File (bytes "#!/usr/bin/env node") ]};
                         "templates" := Dir {[ "content-creator" := sample_template ]} ]};
         "home" := Dir {[ "u" := Dir {[ "notes" := File (bytes "todo");
                                        "old" := Dir ∅ ]} ]} ]}.

Definition sample_user (s : select_input) (t : text_input) : user :=
  {| on_select := λ _, s; on_text := λ _, t |}.

(** An invocation from [/home/u] of the script installed at
    [/pkg/bin/cli.js]. *)
Definition sample_env (s : select_input) (t : text_input) (f : option fault) : env :=
  {| script_file := "/pkg/bin/cli.js"; cwd := "/home/u";
     usr := sample_user s t; transfer_fault := f |}.

Definition permission_denied : fault :=
  {| fault_error := "EACCES: permission denied"; fault_written := None |}.

(** * The path functions on examples *)

Example resolve_relative :
  Path.resolve "/home/u" ["/home/u"; "my-workspace"] = "/home/u/my-workspace".
Proof. reflexivity. Qed.

Example resolve_nested :
  Path.resolve "/home/u" ["/home/u"; "a/b"] = "/home/u/a/b".
Proof. reflexivity. Qed.

Example resolve_absolute_name :
  Path.resolve "/home/u" ["/home/u"; "/srv/site"] = "/srv/site".
Proof. reflexivity. Qed.

Example resolve_dots :
  Path.resolve "/home/u" ["/pkg/bin"; "../templates"; "content-creator"]
  = "/pkg/templates/content-creator".
Proof. reflexivity. Qed.

Example resolve_above_root :
  Path.resolve "/" ["/"; "../../x/./y//"] = "/x/y".
Proof. reflexivity. Qed.

Example dirname_script : Path.dirname "/pkg/bin/cli.js" = "/pkg/bin".
Proof. reflexivity. Qed.

Example dirname_top : Path.dirname "/cli.js" = "/".
Proof. reflexivity. Qed.

(** * Facts about paths *)

(** Expose the separator that [+:+] prepends. *)
Ltac expose_slash :=
  repeat match goal with
         | |- context [ "/" +:+ ?b ] => change ("/" +:+ b) with (String "/"%char b)
         end.

Section PathFacts.

Import Path.

Lemma split_slash_cons s : ∃ seg segs, split_slash s = seg :: segs.
Proof.
  induction s as [|c s [seg [segs IH]]]; simpl; [by eauto|].
  destruct (Ascii.eqb c "/"); [by eauto|]. rewrite IH. by eauto.
Qed.

Lemma split_slash_app a b :
  split_slash (a +:+ String "/" b) = split_slash a ++ split_slash b.
Proof.
  induction a as [|c a IH]; simpl; [done|].
  destruct (Ascii.eqb c "/"); [by rewrite IH|].
  rewrite IH. destruct (split_slash_cons a) as [seg [segs ->]]. done.
Qed.

Lemma split_slash_free s : Forall (λ seg, slash_free seg = true) (split_slash s).
Proof.
  induction s as [|c s IH]; simpl; [by repeat constructor|].
  destruct (Ascii.eqb c "/") eqn:Hc; [by constructor|].
  destruct (split_slash s) as [|seg segs]; [by repeat constructor; simpl; rewrite Hc|].
  inversion IH; subst. constructor; [|done]. simpl. by rewrite Hc.
Qed.

Lemma split_slash_single s : slash_free s = true → split_slash s = [s].
Proof.
  induction s as [|c s IH]; simpl; [done|].
  intros [Hc Hs]%andb_prop. apply negb_true_iff in Hc. rewrite Hc, (IH Hs). done.
Qed.

Lemma split_join seg segs :
  Forall (λ s, slash_free s = true) (seg :: segs) →
  split_slash (join_slash (seg :: segs)) = seg :: segs.
Proof.
  revert seg. induction segs as [|s segs IH]; intros seg Hall.
  - simpl. apply split_slash_single. by inversion Hall.
  - inversion Hall as [|? ? Hseg Hrest]; subst.
    change (join_slash (seg :: s :: segs))
      with (seg +:+ String "/" (join_slash (s :: segs))).
    rewrite split_slash_app, (split_slash_single _ Hseg), (IH _ Hrest). done.
Qed.

Lemma plain_step res seg :
  plain seg → normalize_step false res seg = seg :: res.
Proof.
  intros (_ & H0 & H1 & H2). unfold normalize_step.
  apply String.eqb_neq in H0, H1, H2. by rewrite H0, H1, H2.
Qed.

Lemma normalize_step_plain res seg :
  Forall plain res → slash_free seg = true →
  Forall plain (normalize_step false res seg).
Proof.
  intros Hres Hseg. unfold normalize_step.
  destruct (String.eqb_spec seg "") as [|H0]; [done|].
  destruct (String.eqb_spec seg ".") as [|H1]; [done|]. simpl.
  destruct (String.eqb_spec seg "..") as [|H2].
  - destruct res as [|last before]; [done|].
    destruct (String.eqb last ".."); [done|]. by inversion Hres.
  - constructor; [|done]. by repeat split.
Qed.

Lemma fold_normalize_plain segs res :
  Forall (λ s, slash_free s = true) segs → Forall plain res →
  Forall plain (fold_left (normalize_step false) segs res).
Proof.
  revert res. induction segs as [|seg segs IH]; intros res Hsegs Hres; [done|].
  inversion Hsegs; subst. simpl. apply IH; [done|]. by apply normalize_step_plain.
Qed.

Lemma normalize_segments_split_plain s :
  Forall plain (normalize_segments false (split_slash s)).
Proof.
  unfold normalize_segments. apply Forall_rev.
  apply fold_normalize_plain; [apply split_slash_free | constructor].
Qed.

Lemma fold_normalize_id segs res :
  Forall plain segs →
  fold_left (normalize_step false) segs res = rev segs ++ res.
Proof.
  revert res. induction segs as [|seg segs IH]; intros res Hall; [done|].
  inversion Hall; subst. simpl. rewrite plain_step by done.
  rewrite IH by done. by rewrite <- app_assoc.
Qed.

Lemma normalize_segments_id segs :
  Forall plain segs → normalize_segments false segs = segs.
Proof.
  intros Hall. unfold normalize_segments.
  rewrite fold_normalize_id, app_nil_r by done. apply rev_involutive.
Qed.

Lemma normalize_segments_trailing b segs :
  normalize_segments b (segs ++ [""]) = normalize_segments b segs.
Proof. unfold normalize_segments. by rewrite fold_left_app. Qed.

Lemma normalize_segments_leading b segs :
  normalize_segments b ("" :: segs) = normalize_segments b segs.
Proof. done. Qed.

(** The kernel walks a canonical path segment by segment. *)
Lemma segments_canonical stack :
  Forall plain stack → segments ("/" +:+ join_slash stack) = stack.
Proof.
  intros Hall. unfold segments.
  change (split_slash ("/" +:+ join_slash stack))
    with ("" :: split_slash (join_slash stack)).
  rewrite normalize_segments_leading.
  destruct stack as [|seg segs]; [done|].
  rewrite split_join; [by apply normalize_segments_id|].
  eapply Forall_impl; [exact Hall|]. by intros ? [? _].
Qed.

Lemma is_absolute_nonempty p : is_absolute p = true → String.eqb p "" = false.
Proof. by destruct p. Qed.

(** An absolute last argument decides the result alone. *)
Lemma resolve_last_absolute cwd args p :
  is_absolute p = true →
  resolve cwd (args ++ [p]) = "/" +:+ join_slash (segments p).
Proof.
  intros Habs. unfold resolve. rewrite rev_app_distr. simpl.
  rewrite (is_absolute_nonempty _ Habs), Habs. simpl.
  unfold normalizeString. expose_slash. rewrite split_slash_app. simpl.
  by rewrite normalize_segments_trailing.
Qed.

Lemma resolve_canonical_fixed cwd args p :
  canonical p → resolve cwd (args ++ [p]) = p.
Proof.
  intros (stack & Hall & ->).
  rewrite resolve_last_absolute by done. by rewrite segments_canonical.
Qed.

(** A relative, non-empty name is appended to an absolute first argument. *)
Lemma resolve_relative_name cwd base name :
  is_absolute base = true → String.eqb name "" = false → is_absolute name = false →
  resolve cwd [base; name]
  = "/" +:+ join_slash (normalize_segments false (split_slash base ++ split_slash name)).
Proof.
  intros Hbase Hne Hrel. unfold resolve. simpl.
  rewrite Hne, Hrel, (is_absolute_nonempty _ Hbase), Hbase. simpl.
  unfold normalizeString. expose_slash. rewrite !split_slash_app. simpl.
  by rewrite app_assoc, normalize_segments_trailing.
Qed.

Lemma resolve_loop_reaches_absolute paths p after acc :
  is_absolute p = true →
  ∃ rp, resolve_loop (paths ++ p :: after) acc = (rp, true).
Proof.
  intros Habs. revert acc. induction paths as [|q paths IH]; intros acc; simpl.
  - rewrite (is_absolute_nonempty _ Habs), Habs. by eauto.
  - destruct (String.eqb q ""); [by apply IH|].
    destruct (is_absolute q); [by eauto | by apply IH].
Qed.

(** Whatever the arguments, resolving against an absolute working
    directory yields an absolute path in normal form. *)
Lemma resolve_canonical cwd args :
  is_absolute cwd = true → canonical (resolve cwd args).
Proof.
  intros Habs. unfold resolve.
  destruct (resolve_loop_reaches_absolute (rev args) cwd [] "" Habs) as [rp ->].
  simpl. eexists. split; [|reflexivity]. apply normalize_segments_split_plain.
Qed.

Lemma canonical_absolute p : canonical p → is_absolute p = true.
Proof. by intros (stack & _ & ->). Qed.

Lemma dirname_absolute p : is_absolute p = true → is_absolute (dirname p) = true.
Proof.
  destruct p as [|c0 tail]; [done|]. simpl. intros Hc. rewrite Hc.
  destruct (dirname_scan _ _) as [[|k kept]|]; done.
Qed.

(** With an absolute first argument the working directory is never
    consulted. *)
Lemma resolve_ignores_cwd cwd1 cwd2 base rest :
  is_absolute base = true →
  resolve cwd1 (base :: rest) = resolve cwd2 (base :: rest).
Proof.
  intros Habs. unfold resolve. simpl. rewrite <- !app_assoc. simpl.
  assert (∀ acc, resolve_loop (rev rest ++ [base; cwd1]) acc
                 = resolve_loop (rev rest ++ [base; cwd2]) acc) as ->; [|done].
  induction (rev rest) as [|q paths IH]; intros acc; simpl.
  - by rewrite (is_absolute_nonempty _ Habs), Habs.
  - destruct (String.eqb q ""); [by apply IH|].
    destruct (is_absolute q); [done | by apply IH].
Qed.

End PathFacts.

(** * Facts about the filesystem *)

Lemma fs_lookup_app t p q :
  fs_lookup t (p ++ q) = fs_lookup t p ≫= λ n, fs_lookup n q.
Proof.
  revert t. induction p as [|name p IH]; intros t; simpl; [done|].
  destruct t as [c|es]; [done|]. destruct (es !! name); [by apply IH | done].
Qed.

Lemma fs_lookup_prefix t p r :
  is_Some (fs_lookup t (p ++ r)) → is_Some (fs_lookup t p).
Proof.
  rewrite fs_lookup_app. destruct (fs_lookup t p); [by eauto|].
  by intros [? ?].
Qed.

Lemma fs_lookup_mk_chain p new : fs_lookup (mk_chain p new) p = Some new.
Proof.
  induction p as [|name p IH]; simpl; [done|]. by rewrite lookup_singleton_eq.
Qed.

Lemma fs_lookup_mk_chain_off p new q :
  ¬ p `prefix_of` q → ¬ q `prefix_of` p → fs_lookup (mk_chain p new) q = None.
Proof.
  revert q. induction p as [|a p IH]; intros q Hpq Hqp.
  - destruct Hpq. apply prefix_nil.
  - destruct q as [|b q]; [destruct Hqp; apply prefix_nil|]. simpl.
    destruct (decide (a = b)) as [->|Hab].
    + rewrite lookup_singleton_eq. apply IH.
      * intros H. apply Hpq. by apply prefix_cons.
      * intros H. apply Hqp. by apply prefix_cons.
    + by rewrite lookup_singleton_ne.
Qed.

(** Every directory on the way down a fresh chain is a directory. *)
Lemma fs_lookup_mk_chain_parent q r new :
  r ≠ [] → is_dir <$> fs_lookup (mk_chain (q ++ r) new) q = Some true.
Proof.
  intros Hr. induction q as [|name q IH]; simpl.
  - by destruct r.
  - by rewrite lookup_singleton_eq.
Qed.

(** What was put can be read back. *)
Lemma fs_put_lookup p new t t' :
  fs_lookup t p = None → fs_put p new t = Some t' → fs_lookup t' p = Some new.
Proof.
  revert t t'. induction p as [|name p IH]; intros t t'; simpl; [done|].
  destruct t as [c|es]; [done|].
  destruct (es !! name) as [child|] eqn:Hname.
  - intros Hnone. destruct (fs_put p new child) as [child'|] eqn:Hput; [|done].
    intros [= <-]. simpl. rewrite lookup_insert_eq. by eapply IH.
  - intros _ [= <-]. simpl. rewrite lookup_insert_eq. apply fs_lookup_mk_chain.
Qed.

(** The directories leading to the destination exist afterwards. *)
Lemma fs_put_parents q r new t t' :
  r ≠ [] → fs_put (q ++ r) new t = Some t' →
  is_dir <$> fs_lookup t' q = Some true.
Proof.
  intros Hr. revert t t'. induction q as [|name q IH]; intros t t'; simpl.
  - destruct r as [|name r]; [done|]. simpl.
    destruct t as [c|es]; [done|].
    destruct (es !! name) as [child|]; [|by intros [= <-]].
    destruct (fs_put r new child); [by intros [= <-] | done].
  - destruct t as [c|es]; [done|].
    destruct (es !! name) as [child|] eqn:Hname.
    + destruct (fs_put (q ++ r) new child) as [child'|] eqn:Hput; [|done].
      intros [= <-]. simpl. rewrite lookup_insert_eq. by eapply IH.
    + intros [= <-]. simpl. rewrite lookup_insert_eq.
      by apply fs_lookup_mk_chain_parent.
Qed.

(** Nothing beside the destination changes. *)
Lemma fs_put_frame p new t t' q :
  fs_lookup t p = None → fs_put p new t = Some t' →
  ¬ p `prefix_of` q → ¬ q `prefix_of` p →
  fs_lookup t' q = fs_lookup t q.
Proof.
  revert t t' q. induction p as [|name p IH]; intros t t' q; simpl; [done|].
  destruct t as [c|es]; [done|].
  intros Hnone Hput Hpq Hqp.
  destruct q as [|b q]; [destruct Hqp; apply prefix_nil|].
  assert (name = b → ¬ p `prefix_of` q) as Hpq'.
  { intros -> H. apply Hpq. by apply prefix_cons. }
  assert (name = b → ¬ q `prefix_of` p) as Hqp'.
  { intros -> H. apply Hqp. by apply prefix_cons. }
  destruct (es !! name) as [child|] eqn:Hname.
  - destruct (fs_put p new child) as [child'|] eqn:Hput'; [|done].
    injection Hput as <-. simpl.
    destruct (decide (name = b)) as [->|Hne].
    + rewrite lookup_insert_eq, Hname. eapply IH; eauto.
    + by rewrite lookup_insert_ne.
  - injection Hput as <-. simpl.
    destruct (decide (name = b)) as [->|Hne].
    + rewrite lookup_insert_eq, Hname. apply fs_lookup_mk_chain_off; auto.
    + by rewrite lookup_insert_ne.
Qed.

(** A regular file on the way makes the write fail. *)
Lemma fs_put_through_file s r c new t :
  fs_lookup t s = Some (File c) → r ≠ [] → fs_put (s ++ r) new t = None.
Proof.
  intros Hs Hr. revert t Hs. induction s as [|name s IH]; intros t; simpl.
  - intros [= ->]. by destruct r.
  - destruct t as [c'|es]; [done|].
    destruct (es !! name) as [child|]; [|done].
    intros Hs. by rewrite (IH _ Hs).
Qed.

(** With no regular file on the way, the write goes through. *)
Lemma fs_put_succeeds p new t :
  fs_lookup t p = None →
  (∀ q c, q `prefix_of` p → fs_lookup t q ≠ Some (File c)) →
  is_Some (fs_put p new t).
Proof.
  revert t. induction p as [|name p IH]; intros t; simpl; [done|].
  intros Hnone Hfiles.
  destruct t as [c|es].
  { destruct (Hfiles [] c); [apply prefix_nil | done]. }
  destruct (es !! name) as [child|] eqn:Hname; [|by eauto].
  destruct (IH child Hnone) as [child' ->]; [|by eauto].
  intros q c Hq Hfile. apply (Hfiles (name :: q) c); [by apply prefix_cons|].
  simpl. by rewrite Hname.
Qed.

Lemma way_is_clear_spec t p :
  way_is_clear t p = true →
  ∀ q c, q `prefix_of` p → fs_lookup t q ≠ Some (File c).
Proof.
  revert t. induction p as [|name p IH]; intros t Hclear q c Hq.
  - apply prefix_nil_inv in Hq as ->. simpl. by destruct t.
  - destruct t as [c'|es]; [done|]. destruct q as [|x q]; [done|].
    apply prefix_cons_inv_1 in Hq as Hx. apply prefix_cons_inv_2 in Hq. subst x.
    simpl in *. destruct (es !! name) as [child|]; [by apply IH | done].
Qed.

Lemma fs_exists_false root p :
  fs_exists root p = false ↔ fs_lookup root (Path.segments p) = None.
Proof.
  unfold fs_exists. rewrite bool_decide_eq_false, <- eq_None_not_Some. done.
Qed.

(** What a completed copy means on the trees. *)
Lemma copy_tree_completed flt src dest root root' :
  copy_tree flt src dest root = (root', None) →
  ∃ tree,
    fs_lookup root (Path.segments src) = Some tree
    ∧ flt = None
    ∧ fs_put (Path.segments dest) tree root = Some root'
    ∧ Path.segments src ≠ Path.segments dest
    ∧ (is_dir tree = true → ¬ Path.segments src `prefix_of` Path.segments dest).
Proof.
  unfold copy_tree.
  destruct (fs_lookup root (Path.segments src)) as [tree|]; [|done].
  case_bool_decide as Hsame; [done|].
  destruct (is_dir tree && _) eqn:Hsub; [done|].
  destruct flt as [f|]; [done|].
  destruct (fs_put _ tree root) as [r|] eqn:Hput; [|done].
  intros [= <-]. exists tree. repeat split; try done.
  intros Hdir Hpre. rewrite Hdir in Hsub. simpl in Hsub.
  by apply bool_decide_eq_false in Hsub.
Qed.

(** Without a fault, a present template that does not contain the target
    and a way to the target free of regular files let the copy complete. *)
Lemma copy_tree_succeeds src dest root :
  is_Some (fs_lookup root (Path.segments src)) →
  ¬ Path.segments src `prefix_of` Path.segments dest →
  fs_lookup root (Path.segments dest) = None →
  (∀ q c, q `prefix_of` Path.segments dest → fs_lookup root q ≠ Some (File c)) →
  ∃ root', copy_tree None src dest root = (root', None).
Proof.
  intros [tree Htree] Hsub Hnone Hway. unfold copy_tree. rewrite Htree.
  case_bool_decide as Hsame; [by destruct Hsub; rewrite Hsame|].
  rewrite (bool_decide_eq_false_2 _ Hsub), andb_false_r.
  destruct (fs_put_succeeds _ tree _ Hnone Hway) as [root' ->]. by eauto.
Qed.

(** * Facts about runs *)

Lemma destination_name_truthy typed :
  truthy (Some (destination_name typed)) = Some (destination_name typed).
Proof.
  unfold destination_name.
  destruct (String.eqb typed "") eqn:Htyped; [done|]. simpl. by rewrite Htyped.
Qed.

Lemma destination_name_typed typed :
  String.eqb typed "" = false → destination_name typed = typed.
Proof. unfold destination_name. by intros ->. Qed.

(** The answers [prompts] hands back, by what the user does. *)
Lemma prompts_run u st :
  prompts u questions st =
  match on_select u "template" with
  | SelectAbort => (Normal ∅, emit (Asked "template") st)
  | SelectEnter _ =>
      let st := emit (Asked "projectName") (emit (Asked "template") st) in
      match on_text u "projectName" with
      | TextAbort => (Normal {[ "template" := "content-creator" ]}, st)
      | TextEnter typed =>
          (Normal (<["projectName" := destination_name typed]>
                     {[ "template" := "content-creator" ]}), st)
      end
  end.
Proof.
  unfold prompts, questions. cbn [prompts_loop].
  destruct (on_select u "template") as [|downs]; [done|].
  cbn [template_choices length]. rewrite Nat.mod_1_r. cbn [lookup list_lookup].
  destruct (on_text u "projectName") as [|typed]; done.
Qed.

Lemma answers_template (name : string) :
  truthy ((<["projectName" := name]>
             ({[ "template" := "content-creator" ]} : gmap string string)) !! "template")
  = Some "content-creator".
Proof. by rewrite lookup_insert_ne, lookup_singleton_eq. Qed.

Lemma answers_name (name : string) :
  (<["projectName" := name]>
     ({[ "template" := "content-creator" ]} : gmap string string)) !! "projectName"
  = Some name.
Proof. by rewrite lookup_insert_eq. Qed.

Lemma run_outcome e root :
  outcome e root (run_status e root) (run_fs e root) (run_trace e root).
Proof.
  unfold run_status, run_fs, run_trace, run.
  destruct (main e _) as [c st] eqn:Hmain. cbn [fst snd].
  unfold main, try_catch, init, bind, console_log in Hmain.
  rewrite prompts_run in Hmain.
  destruct (on_select (usr e) "template") as [|downs] eqn:Hsel.
  { injection Hmain as <- <-. by apply CancelledAtTemplate. }
  destruct (on_text (usr e) "projectName") as [|typed] eqn:Htxt.
  { injection Hmain as <- <-. by eapply CancelledAtName. }
  cbv zeta in Hmain. unfold scaffold in Hmain.
  rewrite answers_template, answers_name, destination_name_truthy in Hmain.
  unfold bind, existsSync in Hmain. cbn [st_fs emit] in Hmain.
  destruct (fs_exists root _) eqn:Hfound.
  { injection Hmain as <- <-. by eapply TargetExists. }
  unfold transfer, try_catch, bind, console_log, fs_copy in Hmain.
  cbn [st_fs emit] in Hmain.
  destruct (copy_tree _ _ _ root) as [root' [err|]] eqn:Hcopy.
  - injection Hmain as <- <-. by eapply TransferFailed.
  - injection Hmain as <- <-. by eapply Created.
Qed.

(** Case analysis on a run, through [run_outcome]; hypotheses about the
    run are to be reverted first. *)
Ltac run_cases e root :=
  generalize (run_outcome e root);
  generalize (run_status e root), (run_fs e root), (run_trace e root);
  intros ? ? ? [ Hsel | ? Hsel Htxt | ? ? Hsel Htxt Hfound
               | ? ? ? Hsel Htxt Hfound Hcopy | ? ? ? ? Hsel Htxt Hfound Hcopy ].

(** Membership in a trace that is written out. *)
Ltac in_trace H :=
  unfold preamble in H; simpl in H;
  repeat (destruct H as [H|H]; try discriminate H); try contradiction.

(** Two equations on what the user did at one prompt. *)
Ltac same_input :=
  repeat match goal with
         | H1 : ?f ?u ?q = _, H2 : ?f ?u ?q = _ |- _ =>
             rewrite H1 in H2; first [discriminate H2 | injection H2 as ? | clear H2]
         end; subst.

(** Membership in a trace that is computed. *)
Ltac in_sample_trace := vm_compute; repeat (first [left; reflexivity | right]).

(** Every copy a run attempts goes from the template directory of
    [content-creator] to the target directory of the name given. *)
Lemma copy_endpoints e root src dest err :
  In (Copy src dest err) (run_trace e root) →
  src = templateDir e "content-creator"
  ∧ ∃ typed, dest = targetDir e (destination_name typed).
Proof.
  run_cases e root; intros Hin; in_trace Hin; injection Hin as <- <- _; by eauto.
Qed.

(** The template directory is the script's directory joined with
    [../templates/<id>], whatever the working directory. *)
Lemma templateDir_joined e id :
  Path.is_absolute (script_file e) = true →
  Path.is_absolute id = false →
  templateDir e id
  = "/" +:+ Path.join_slash (Path.segments (__dirname e +:+ "/../templates/" +:+ id)).
Proof.
  intros Habs Hrel. apply dirname_absolute in Habs. fold (__dirname e) in Habs.
  unfold Path.segments.
  change ("/../templates/" +:+ id) with (String "/"%char ("../templates" +:+ "/" +:+ id)).
  expose_slash. rewrite !split_slash_app.
  change (Path.split_slash "../templates") with [".."; "templates"].
  unfold templateDir, Path.resolve. cbn [rev app Path.resolve_loop].
  destruct (String.eqb_spec id "") as [->|Hne].
  - change (String.eqb "../templates" "") with false.
    change (Path.is_absolute "../templates") with false. cbv iota.
    rewrite (is_absolute_nonempty _ Habs), Habs. cbv iota beta.
    unfold Path.normalizeString. expose_slash. rewrite !split_slash_app.
    change (Path.split_slash "../templates") with [".."; "templates"]. done.
  - rewrite Hrel.
    change (String.eqb "../templates" "") with false.
    change (Path.is_absolute "../templates") with false. cbv iota.
    rewrite (is_absolute_nonempty _ Habs), Habs. cbv iota beta.
    unfold Path.normalizeString. expose_slash. rewrite !split_slash_app.
    change (Path.split_slash "../templates") with [".."; "templates"].
    change (Path.split_slash "") with [""].
    rewrite !app_assoc, normalize_segments_trailing. by rewrite <- !app_assoc.
Qed.

(** * The specification's claims *)

(** C1 (the code departs from the claim).  When the copy throws, the
    [catch] block of [init] prints the failure on stderr and falls through:
    no [process.exit(1)] follows as it does on the other failure paths, so
    the process ends with exit status 0 where the claim asks for a
    non-zero status.  The failure is reported. *)
Theorem failed_transfer_exit_status e root src dest err :
  In (Copy src dest (Some err)) (run_trace e root) →
  run_status e root = 0 ∧ In (Stderr (msg_failed err)) (run_trace e root).
Proof.
  run_cases e root; intros Hin; in_trace Hin.
  injection Hin as _ _ ->. split; [done|]. unfold preamble. simpl. tauto.
Qed.

(** On the sample installation: the name [notes/site] runs into the
    regular file [notes]; the copy throws, the failure is printed and the
    exit status is 0. *)
Lemma failed_transfer_exit_status_witness :
  let e := sample_env (SelectEnter 0) (TextEnter "notes/site") None in
  run_trace e sample_root
  = [ Stdout msg_welcome; Asked "template"; Asked "projectName";
      ExistsSync "/home/u/notes/site" false;
      Stdout "Creating workspace in /home/u/notes/site...";
      Copy "/pkg/templates/content-creator" "/home/u/notes/site"
        (Some "ENOTDIR: cannot create /home/u/notes/site");
      Stderr "Failed to copy template files: ENOTDIR: cannot create /home/u/notes/site" ]
  ∧ run_status e sample_root = 0.
Proof.
  intros e. split; [by vm_compute|].
  apply (failed_transfer_exit_status e sample_root
           "/pkg/templates/content-creator" "/home/u/notes/site"
           "ENOTDIR: cannot create /home/u/notes/site").
  in_sample_trace.
Defined.

(** C2 as stated fails: a name of three blanks is not asked again.  The
    name question is put once, the existence check and the copy go ahead
    on the blank name, and the workspace is created under [/home/u/   ]. *)
Lemma blank_name_is_not_asked_again :
  let e := sample_env (SelectEnter 0) (TextEnter "   ") None in
  whitespace_only "   " = true
  ∧ times_asked "projectName" (run_trace e sample_root) = 1
  ∧ run_trace e sample_root
    = [ Stdout msg_welcome; Asked "template"; Asked "projectName";
        ExistsSync "/home/u/   " false;
        Stdout "Creating workspace in /home/u/   ...";
        Copy "/pkg/templates/content-creator" "/home/u/   " None;
        Stdout msg_created; Stdout "Next steps:"; Stdout "  cd    ";
        Stdout "  opencode" ]
  ∧ fs_lookup (run_fs e sample_root) ["home"; "u"; "   "] = Some sample_template
  ∧ run_status e sample_root = 0.
Proof. intros e. by vm_compute. Qed.

(** C2 (as the code has it).  The name question is put at most once per
    run: nothing is ever asked again.  A line submitted empty stands for
    the default name and any other line, blank or not, is the name as
    typed; either way the run goes on to check the existence of the path
    resolved from it.  Answers whose name is missing or the empty string
    end the run with status 1 before any filesystem operation. *)
Theorem name_is_asked_once e root :
  times_asked "projectName" (run_trace e root) ≤ 1
  ∧ (∀ downs typed,
        on_select (usr e) "template" = SelectEnter downs →
        on_text (usr e) "projectName" = TextEnter typed →
        (typed = "" → destination_name typed = "my-opencode-workspace")
        ∧ (typed ≠ "" → destination_name typed = typed)
        ∧ In (ExistsSync (targetDir e (destination_name typed))
                (fs_exists root (targetDir e (destination_name typed))))
             (run_trace e root))
  ∧ (∀ response st,
        truthy (response !! "projectName") = None →
        scaffold e response st = (Exit 1, emit (Stdout msg_cancelled) st)).
Proof.
  split; [|split].
  - run_cases e root; unfold times_asked, preamble; simpl; lia.
  - intros downs typed Hs Ht. split; [by intros ->|]. split.
    + intros Hne. apply destination_name_typed. by apply String.eqb_neq.
    + run_cases e root; same_input; unfold preamble; simpl; rewrite Hfound; tauto.
  - intros response st Hname. unfold scaffold. rewrite Hname.
    by destruct (truthy (response !! "template")).
Qed.

(** On the sample installation: an empty line stands for the default
    name, whose path is checked. *)
Lemma name_is_asked_once_witness :
  let e := sample_env (SelectEnter 0) (TextEnter "") None in
  times_asked "projectName" (run_trace e sample_root) ≤ 1
  ∧ In (ExistsSync "/home/u/my-opencode-workspace" false) (run_trace e sample_root).
Proof.
  intros e. destruct (name_is_asked_once e sample_root) as (Honce & Hname & _).
  split; [exact Honce|].
  exact (proj2 (proj2 (Hname 0 "" eq_refl eq_refl))).
Defined.

(** C3.  When the resolved target exists at the check, the run prints the
    "already exists" error, exits with status 1 and leaves the filesystem
    as it was: the trace ends right after the error line, no copy is
    attempted.  And whenever a copy is attempted, the existence check of
    its destination is the filesystem operation just before it (only the
    announcement line is printed in between) and it found nothing. *)
Theorem existing_target_is_refused e root :
  (∀ downs typed,
      on_select (usr e) "template" = SelectEnter downs →
      on_text (usr e) "projectName" = TextEnter typed →
      fs_exists root (targetDir e (destination_name typed)) = true →
      run_status e root = 1
      ∧ run_fs e root = root
      ∧ run_trace e root
        = preamble e (destination_name typed) true
            ++ [ Stdout (msg_exists (destination_name typed)) ])
  ∧ (∀ src dest err,
        In (Copy src dest err) (run_trace e root) →
        fs_exists root dest = false
        ∧ ∃ pre post,
            run_trace e root
            = pre ++ [ ExistsSync dest false; Stdout (msg_creating dest);
                       Copy src dest err ] ++ post).
Proof.
  split.
  - intros downs typed Hs Ht Hex.
    run_cases e root; same_input; try done; congruence.
  - intros src dest err.
    run_cases e root; intros Hin; in_trace Hin;
      injection Hin as <- <- <-; (split; [done|]).
    + eexists [_; _; _], _. reflexivity.
    + eexists [_; _; _], _. reflexivity.
Qed.

(** On the sample installation: [old] is an existing directory. *)
Lemma existing_target_is_refused_witness :
  let e := sample_env (SelectEnter 0) (TextEnter "old") None in
  fs_exists sample_root (targetDir e "old") = true
  ∧ run_status e sample_root = 1
  ∧ run_fs e sample_root = sample_root.
Proof.
  intros e. assert (fs_exists sample_root (targetDir e "old") = true) as Hex.
  { by vm_compute. }
  split; [exact Hex|].
  destruct (proj1 (existing_target_is_refused e sample_root) 0 "old" eq_refl eq_refl Hex)
    as (Hstatus & Hfs & _).
  by split.
Defined.

(** C4.  When the copy completes, the run exits with status 0 and the
    tree found at the target afterwards is the tree that stood at the
    template source: the same entry at every relative path, hence the same
    contents and the same number of files; the template itself is
    untouched. *)
Theorem completed_copy_is_faithful e root src dest :
  In (Copy src dest None) (run_trace e root) →
  run_status e root = 0
  ∧ src = templateDir e "content-creator"
  ∧ (∃ tree, fs_lookup root (Path.segments src) = Some tree
             ∧ fs_lookup (run_fs e root) (Path.segments dest) = Some tree)
  ∧ (∀ rel, fs_lookup (run_fs e root) (Path.segments dest ++ rel)
            = fs_lookup root (Path.segments src ++ rel))
  ∧ file_count <$> fs_lookup (run_fs e root) (Path.segments dest)
    = file_count <$> fs_lookup root (Path.segments src)
  ∧ fs_lookup (run_fs e root) (Path.segments src) = fs_lookup root (Path.segments src).
Proof.
  run_cases e root; intros Hin; in_trace Hin. injection Hin as <- <-.
  apply copy_tree_completed in Hcopy as (tree & Hsrc & _ & Hput & Hne & Hdir).
  apply fs_exists_false in Hfound.
  pose proof (fs_put_lookup _ _ _ _ Hfound Hput) as Hdest.
  repeat split.
  - by exists tree.
  - intros rel. by rewrite !fs_lookup_app, Hsrc, Hdest.
  - by rewrite Hsrc, Hdest.
  - eapply fs_put_frame; [exact Hfound | exact Hput | |].
    + intros [r Hr]. rewrite Hr in Hsrc.
      destruct (fs_lookup_prefix root _ r (mk_is_Some _ _ Hsrc)) as [x Hx]. congruence.
    + intros [r Hr]. destruct tree as [c|es].
      * destruct r as [|name r]; [by rewrite app_nil_r in Hr|].
        rewrite Hr in Hput. by rewrite (fs_put_through_file _ _ c) in Hput.
      * apply Hdir; [done|]. by exists r.
Qed.

(** On the sample installation: [my-workspace] receives the template
    tree. *)
Lemma completed_copy_is_faithful_witness :
  let e := sample_env (SelectEnter 0) (TextEnter "my-workspace") None in
  run_status e sample_root = 0
  ∧ fs_lookup (run_fs e sample_root) ["home"; "u"; "my-workspace"] = Some sample_template.
Proof.
  intros e.
  destruct (completed_copy_is_faithful e sample_root
              "/pkg/templates/content-creator" "/home/u/my-workspace")
    as (Hstatus & _ & (tree & Hsrc & Hdest) & _).
  { in_sample_trace. }
  split; [exact Hstatus|].
  rewrite <- Hsrc in Hdest. etransitivity; [|etransitivity]; [|exact Hdest|];
    by vm_compute.
Defined.

(** C5.  When the user aborts the template question or the name question,
    the run exits with status 1 without any filesystem operation, and the
    filesystem it leaves is the one it found. *)
Theorem cancellation_touches_nothing e root :
  on_select (usr e) "template" = SelectAbort
  ∨ (∃ downs, on_select (usr e) "template" = SelectEnter downs
              ∧ on_text (usr e) "projectName" = TextAbort) →
  run_status e root = 1
  ∧ run_fs e root = root
  ∧ fs_events (run_trace e root) = [].
Proof.
  intros Hcancel.
  run_cases e root; destruct Hcancel as [Ha | (d & Hs & Ht)]; same_input; done.
Qed.

(** On the sample installation: the user aborts the name question. *)
Lemma cancellation_touches_nothing_witness :
  let e := sample_env (SelectEnter 0) TextAbort None in
  run_status e sample_root = 1 ∧ run_fs e sample_root = sample_root.
Proof.
  intros e.
  destruct (cancellation_touches_nothing e sample_root) as (Hstatus & Hfs & _).
  { right. exists 0. by split. }
  by split.
Defined.



(** C7.  The target path is a function of the working directory and of
    the name alone; for an absolute working directory it is absolute, and
    resolving it again gives it back.  Whatever the filesystem holds, the
    path whose existence a run checks is this one. *)
Theorem target_resolution_is_idempotent e1 e2 name :
  cwd e1 = cwd e2 →
  Path.is_absolute (cwd e1) = true →
  targetDir e1 name = targetDir e2 name
  ∧ Path.is_absolute (targetDir e1 name) = true
  ∧ targetDir e1 (targetDir e1 name) = targetDir e1 name
  ∧ (∀ root p found,
        In (ExistsSync p found) (run_trace e1 root) →
        ∃ typed, p = targetDir e1 (destination_name typed)
                 ∧ found = fs_exists root p).
Proof.
  intros Hcwd Habs.
  pose proof (resolve_canonical (cwd e1) [cwd e1; name] Habs) as Hcan.
  split; [|split; [|split]].
  - unfold targetDir. by rewrite Hcwd.
  - by apply canonical_absolute.
  - unfold targetDir at 1. by apply (resolve_canonical_fixed _ [_]).
  - intros root p found. run_cases e1 root; intros Hin; in_trace Hin;
      injection Hin as <- <-; by eauto.
Qed.

(** On the sample installation: [a/../b] resolves to [/home/u/b], which
    resolves to itself. *)
Lemma target_resolution_is_idempotent_witness :
  let e := sample_env (SelectEnter 0) (TextEnter "a/../b") None in
  targetDir e "a/../b" = "/home/u/b"
  ∧ targetDir e (targetDir e "a/../b") = targetDir e "a/../b".
Proof.
  intros e. split; [by vm_compute|].
  exact (proj1 (proj2 (proj2
    (target_resolution_is_idempotent e e "a/../b" eq_refl eq_refl)))).
Defined.

(** C8.  The filesystem operations of a run are: none at all; or the
    existence check of the target alone, which found it, and the filesystem
    is unchanged; or that check, which found nothing in the filesystem as
    the run received it, followed by one copy into the target, and the
    filesystem left behind is the result of that copy on the filesystem
    received. *)
Theorem writes_only_by_the_copy e root :
  (fs_events (run_trace e root) = [] ∧ run_fs e root = root)
  ∨ (∃ name,
        fs_events (run_trace e root) = [ ExistsSync (targetDir e name) true ]
        ∧ fs_exists root (targetDir e name) = true
        ∧ run_fs e root = root)
  ∨ (∃ name src err,
        fs_events (run_trace e root)
        = [ ExistsSync (targetDir e name) false; Copy src (targetDir e name) err ]
        ∧ fs_exists root (targetDir e name) = false
        ∧ run_fs e root
          = (copy_tree (transfer_fault e) src (targetDir e name) root).1).
Proof.
  run_cases e root.
  - by left.
  - by left.
  - right; left. by eexists.
  - right; right. eexists _, _, _. rewrite Hcopy. by repeat split.
  - right; right. eexists _, _, _. rewrite Hcopy. by repeat split.
Qed.

(** C9 as stated fails twice.  The absolute name [/srv/site], whose
    target does not exist, is not joined to the working directory [/home/u]:
    the target is [/srv/site].  The name [notes/site], whose target does not
    exist either, goes through the regular file [notes]: the copy throws
    and nothing is created. *)
Lemma separators_do_not_always_join_or_succeed :
  let abs := sample_env (SelectEnter 0) (TextEnter "/srv/site") None in
  let rel := sample_env (SelectEnter 0) (TextEnter "notes/site") None in
  (fs_exists sample_root (targetDir abs "/srv/site") = false
   ∧ targetDir abs "/srv/site" = "/srv/site"
   ∧ "/" +:+ Path.join_slash
               (Path.normalize_segments false
                  (Path.split_slash (cwd abs) ++ Path.split_slash "/srv/site"))
     = "/home/u/srv/site")
  ∧ (fs_exists sample_root (targetDir rel "notes/site") = false
     ∧ run_trace rel sample_root
       = [ Stdout msg_welcome; Asked "template"; Asked "projectName";
           ExistsSync "/home/u/notes/site" false;
           Stdout "Creating workspace in /home/u/notes/site...";
           Copy "/pkg/templates/content-creator" "/home/u/notes/site"
             (Some "ENOTDIR: cannot create /home/u/notes/site");
           Stderr "Failed to copy template files: ENOTDIR: cannot create /home/u/notes/site" ]
     ∧ run_fs rel sample_root = sample_root).
Proof. intros abs rel. by vm_compute. Qed.

(** C9 (as the code has it).  Separators in the name are let through.
    For a non-empty relative name whose resolved target does not exist,
    the target is the working directory followed by the segments of the
    name, normalized, and the copy into it is attempted; when the template
    is present and does not contain the target, no regular file stands on
    the way to the target and no fault strikes, the copy completes with
    exit status 0: every directory on the way to the target exists
    afterwards and the target holds the template tree.  An absolute name
    is resolved on its own, the working directory playing no part. *)
Theorem separator_names_are_permitted e root :
  (∀ downs typed,
      on_select (usr e) "template" = SelectEnter downs →
      on_text (usr e) "projectName" = TextEnter typed →
      String.eqb typed "" = false →
      Path.is_absolute typed = false →
      Path.is_absolute (cwd e) = true →
      fs_exists root (targetDir e typed) = false →
      let segs := Path.normalize_segments false
                    (Path.split_slash (cwd e) ++ Path.split_slash typed) in
      let template := Path.segments (templateDir e "content-creator") in
      targetDir e typed = "/" +:+ Path.join_slash segs
      ∧ Path.segments (targetDir e typed) = segs
      ∧ (∃ err, In (Copy (templateDir e "content-creator") (targetDir e typed) err)
                   (run_trace e root))
      ∧ (transfer_fault e = None →
         is_Some (fs_lookup root template) →
         ¬ template `prefix_of` segs →
         (∀ q c, q `prefix_of` segs → fs_lookup root q ≠ Some (File c)) →
         run_status e root = 0
         ∧ In (Copy (templateDir e "content-creator") (targetDir e typed) None)
              (run_trace e root)
         ∧ (∀ q r, segs = q ++ r → r ≠ [] →
                   is_dir <$> fs_lookup (run_fs e root) q = Some true)
         ∧ fs_lookup (run_fs e root) segs = fs_lookup root template))
  ∧ (∀ typed, Path.is_absolute typed = true →
              targetDir e typed = "/" +:+ Path.join_slash (Path.segments typed)).
Proof.
  split; [|intros typed Habs; by apply (resolve_last_absolute _ [_])].
  intros downs typed Hs Ht Hne Hrel Hcwd Hnew segs template.
  assert (targetDir e typed = "/" +:+ Path.join_slash segs) as Htarget.
  { by apply resolve_relative_name. }
  assert (Forall plain segs) as Hplain.
  { apply Forall_rev, fold_normalize_plain; [|constructor].
    apply Forall_app; split; apply split_slash_free. }
  assert (Path.segments (targetDir e typed) = segs) as Hsegs.
  { rewrite Htarget. by apply segments_canonical. }
  pose proof (destination_name_typed _ Hne) as Hname.
  split; [done|]. split; [done|]. split.
  - run_cases e root; same_input; rewrite ?Hname in *; try congruence;
      eexists; unfold preamble; simpl; tauto.
  - intros Hfault Htemplate Hsub Hway.
    pose proof Hnew as Hnone. apply fs_exists_false in Hnone. rewrite Hsegs in Hnone.
    destruct (copy_tree_succeeds (templateDir e "content-creator") (targetDir e typed) root)
      as [root1 Hok]; rewrite ?Hsegs; try done.
    run_cases e root; same_input; rewrite ?Hname, ?Hfault in *; try congruence.
    rewrite Hok in Hcopy. injection Hcopy as <-.
    apply copy_tree_completed in Hok as (tree & Hsrc & _ & Hput & _).
    rewrite Hsegs in Hput. fold template in Hsrc.
    repeat split.
    + unfold preamble. simpl. tauto.
    + intros q r Hqr Hr. rewrite Hqr in Hput. by eapply fs_put_parents.
    + rewrite Hsrc. by eapply fs_put_lookup.
Qed.

(** On the sample installation: [a/b] creates [/home/u/a] and puts the
    template tree at [/home/u/a/b]. *)
Lemma separator_names_are_permitted_witness :
  let e := sample_env (SelectEnter 0) (TextEnter "a/b") None in
  targetDir e "a/b" = "/home/u/a/b"
  ∧ run_status e sample_root = 0
  ∧ is_dir <$> fs_lookup (run_fs e sample_root) ["home"; "u"; "a"] = Some true
  ∧ fs_lookup (run_fs e sample_root) ["home"; "u"; "a"; "b"] = Some sample_template.
Proof.
  intros e.
  destruct (proj1 (separator_names_are_permitted e sample_root) 0 "a/b"
              eq_refl eq_refl eq_refl eq_refl eq_refl)
    as (Htarget & Hsegs & _ & Hrun).
  { by vm_compute. }
  destruct Hrun as (Hstatus & _ & Hparents & Htree).
  - reflexivity.
  - apply (bool_decide_unpack _). by vm_compute.
  - intros Hsub. apply (bool_decide_pack _) in Hsub. by vm_compute in Hsub.
  - apply way_is_clear_spec. by vm_compute.
  - split; [by vm_compute|]. split; [exact Hstatus|]. split.
    + apply (Hparents ["home"; "u"; "a"] ["b"]); [by vm_compute | done].
    + etransitivity; [|etransitivity]; [|exact Htree|]; by vm_compute.
Defined.

(** C10.  Two runs of the same installed script copy from the same
    template directory, whatever their working directories, destination
    names and filesystems: for every identifier the template directory is
    the same in both, and it is the script's directory joined with
    [../templates/<id>]. *)
Theorem template_source_is_fixed_by_the_script e1 e2 :
  script_file e1 = script_file e2 →
  Path.is_absolute (script_file e1) = true →
  (∀ id, templateDir e1 id = templateDir e2 id)
  ∧ (∀ id, Path.is_absolute id = false →
           templateDir e1 id
           = "/" +:+ Path.join_slash
                       (Path.segments (Path.dirname (script_file e1)
                                         +:+ "/../templates/" +:+ id)))
  ∧ (∀ root1 root2 src1 dest1 err1 src2 dest2 err2,
        In (Copy src1 dest1 err1) (run_trace e1 root1) →
        In (Copy src2 dest2 err2) (run_trace e2 root2) →
        src1 = src2 ∧ src1 = templateDir e1 "content-creator").
Proof.
  intros Hfile Habs.
  assert (∀ id, templateDir e1 id = templateDir e2 id) as Hsame.
  { intros id. unfold templateDir, __dirname. rewrite <- Hfile.
    apply (resolve_ignores_cwd _ _ _ _ (dirname_absolute _ Habs)). }
  split; [done|]. split.
  - intros id Hrel. by apply templateDir_joined.
  - intros root1 root2 src1 dest1 err1 src2 dest2 err2 Hin1 Hin2.
    apply copy_endpoints in Hin1 as [-> _], Hin2 as [-> _]. by split.
Qed.

(** On the sample installation: from [/home/u] or from [/tmp], the
    template directory is [/pkg/templates/content-creator]. *)
Lemma template_source_is_fixed_by_the_script_witness :
  let e1 := sample_env (SelectEnter 0) (TextEnter "one") None in
  let e2 := {| script_file := "/pkg/bin/cli.js"; cwd := "/tmp";
               usr := sample_user (SelectEnter 0) (TextEnter "two/three");
               transfer_fault := Some permission_denied |} in
  templateDir e1 "content-creator" = templateDir e2 "content-creator"
  ∧ templateDir e1 "content-creator" = "/pkg/templates/content-creator".
Proof.
  intros e1 e2.
  destruct (template_source_is_fixed_by_the_script e1 e2 eq_refl eq_refl)
    as (Hsame & Hjoined & _).
  split; [exact (Hsame "content-creator")|].
  rewrite (Hjoined "content-creator" eq_refl). by vm_compute.
Defined.


(** * Further properties of [bin/cli.js] *)

(** Messages as the characters they start with, to tell them apart. *)
Ltac unfold_messages :=
  unfold msg_welcome, msg_cancelled, msg_exists, msg_creating, msg_created,
    msg_failed in *.

(** X1.  The exit status is 0 or 1.  Once [fs.copy] has been called the
    status is 0, whether or not the copy went well; a run that ends with
    status 1 has not called it and has left the filesystem as it found
    it. *)
Theorem copy_attempt_means_status_zero e root :
  (run_status e root = 0 ∨ run_status e root = 1)
  ∧ ((∃ src dest err, In (Copy src dest err) (run_trace e root)) →
     run_status e root = 0)
  ∧ (run_status e root = 1 →
     run_fs e root = root
     ∧ ∀ src dest err, ¬ In (Copy src dest err) (run_trace e root)).
Proof.
  run_cases e root; (split; [tauto|]); split;
    try (intros (src & dest & err & Hin); by in_trace Hin);
    try done;
    intros _; (split; [done|]); intros src dest err Hin; by in_trace Hin.
Qed.

(** X2.  The line "Workspace successfully created!" is printed exactly
    when the copy completed, and then the run ends with the next steps,
    which name the project as it was typed (or the default name), not the
    resolved path. *)
Theorem success_message_iff_copy_completed e root :
  (In (Stdout msg_created) (run_trace e root)
   ↔ ∃ src dest, In (Copy src dest None) (run_trace e root))
  ∧ (In (Stdout msg_created) (run_trace e root) →
     ∃ typed pre,
       on_text (usr e) "projectName" = TextEnter typed
       ∧ run_trace e root
         = pre ++ [ Stdout msg_created; Stdout "Next steps:";
                    Stdout ("  cd " +:+ destination_name typed);
                    Stdout "  opencode" ]).
Proof.
  run_cases e root; split; try split;
    try (intros (src & dest & Hin)); try intros Hin;
    unfold_messages; in_trace Hin.
  - eexists _, _. unfold preamble. simpl. tauto.
  - unfold preamble. simpl. tauto.
  - exists typed. eexists [_; _; _; _; _; _]. by split.
Qed.

(** X3.  Standard error carries copy failures and nothing else: every
    line written there is the "Failed to copy template files" line of a
    copy that threw.  The cancellation and "already exists" messages go to
    standard output, so a run that ends with status 1 writes nothing to
    standard error. *)
Theorem stderr_only_for_failed_copy e root :
  (∀ line, In (Stderr line) (run_trace e root) →
           ∃ src dest err,
             line = msg_failed err
             ∧ In (Copy src dest (Some err)) (run_trace e root))
  ∧ (run_status e root = 1 → ∀ line, ¬ In (Stderr line) (run_trace e root)).
Proof.
  run_cases e root; split; try done; try (intros _); intros line Hin; in_trace Hin.
  injection Hin as <-. eexists _, _, _. split; [done|].
  unfold preamble. simpl. tauto.
Qed.

(** X4.  Whatever the answers and the state, [scaffold] ends normally or
    by [process.exit(1)]: the error of a failed copy is caught inside and
    never propagates.  So does [init], and the handler installed on
    [init()] at the end of the script never runs: [main] behaves as
    [init]. *)
Theorem copy_errors_never_propagate e :
  (∀ response st,
      ∃ st', scaffold e response st = (Normal tt, st')
             ∨ scaffold e response st = (Exit 1, st'))
  ∧ (∀ st, ∃ st', init e st = (Normal tt, st') ∨ init e st = (Exit 1, st'))
  ∧ (∀ st, main e st = init e st).
Proof.
  assert (∀ response st,
             ∃ st', scaffold e response st = (Normal tt, st')
                    ∨ scaffold e response st = (Exit 1, st')) as Hscaffold.
  { intros response st. unfold scaffold.
    destruct (truthy (response !! "template")) as [template|];
      [|by eexists; right].
    destruct (truthy (response !! "projectName")) as [projectName|];
      [|by eexists; right].
    unfold bind, existsSync. destruct (fs_exists _ _); [by eexists; right|].
    unfold transfer, try_catch, bind, console_log, fs_copy.
    destruct (copy_tree _ _ _ _) as [root' [err|]]; by eexists; left. }
  assert (∀ st, ∃ st', init e st = (Normal tt, st') ∨ init e st = (Exit 1, st'))
    as Hinit.
  { intros st. unfold init, bind, console_log. rewrite prompts_run.
    destruct (on_select (usr e) "template") as [|downs]; [by apply Hscaffold|].
    destruct (on_text (usr e) "projectName"); by apply Hscaffold. }
  split; [done|]. split; [done|].
  intros st. unfold main, try_catch.
  by destruct (Hinit st) as [st' [-> | ->]].
Qed.

(** X5.  A run opens with the welcome line and the template question.
    The template question is put exactly once, the name question once if
    a template was chosen and not at all otherwise, and every question
    comes before the first filesystem operation. *)
Theorem questions_come_first e root :
  (∃ rest, run_trace e root = Stdout msg_welcome :: Asked "template" :: rest)
  ∧ times_asked "template" (run_trace e root) = 1
  ∧ times_asked "projectName" (run_trace e root)
    = match on_select (usr e) "template" with
      | SelectAbort => 0
      | SelectEnter _ => 1
      end
  ∧ ∃ pre post,
      run_trace e root = pre ++ post
      ∧ fs_events pre = []
      ∧ ∀ name, times_asked name post = 0.
Proof.
  run_cases e root; rewrite Hsel;
    (split; [by eexists|]); (split; [done|]); (split; [done|]).
  - by eexists [_; _; _], [].
  - by eexists [_; _; _; _], [].
  - by eexists [_; _; _], _.
  - by eexists [_; _; _], _.
  - by eexists [_; _; _], _.
Qed.

Section MorePathFacts.

Import Path.

Lemma append_cons c (r s : string) : String c r +:+ s = String c (r +:+ s).
Proof. reflexivity. Qed.

Lemma string_app_assoc (a b c : string) : (a +:+ b) +:+ c = a +:+ b +:+ c.
Proof.
  induction a as [|x a IH]; [reflexivity|]. rewrite !append_cons. by f_equal.
Qed.

Lemma join_slash_app a b :
  a ≠ [] → b ≠ [] →
  join_slash (a ++ b) = join_slash a +:+ "/" +:+ join_slash b.
Proof.
  intros Ha Hb. induction a as [|x a IH]; [done|].
  destruct a as [|y a].
  - destruct b as [|z b]; [done|]. done.
  - change (join_slash ((x :: y :: a) ++ b))
      with (x +:+ "/" +:+ join_slash ((y :: a) ++ b)).
    rewrite IH by done.
    change (join_slash (x :: y :: a)) with (x +:+ "/" +:+ join_slash (y :: a)).
    by rewrite !string_app_assoc.
Qed.

Lemma plain_first_char seg :
  plain seg → ∃ c rest, seg = String c rest ∧ Ascii.eqb c "/" = false.
Proof.
  intros (Hfree & Hne & _). destruct seg as [|c rest]; [done|].
  exists c, rest. split; [done|]. simpl in Hfree.
  apply andb_prop in Hfree as [Hc _]. by apply negb_true_iff.
Qed.

(** A name made of plain segments is relative and not empty. *)
Lemma join_plain_relative segs :
  segs ≠ [] → Forall plain segs →
  is_absolute (join_slash segs) = false ∧ String.eqb (join_slash segs) "" = false.
Proof.
  intros Hne Hall. destruct segs as [|seg segs]; [done|].
  inversion Hall as [|? ? Hseg _]; subst.
  destruct (plain_first_char _ Hseg) as (c & rest & -> & Hc).
  destruct segs as [|seg segs].
  - simpl. by rewrite Hc.
  - change (join_slash (String c rest :: seg :: segs))
      with (String c (rest +:+ "/" +:+ join_slash (seg :: segs))).
    simpl. by rewrite Hc.
Qed.

Lemma Forall_plain_slash_free segs :
  Forall plain segs → Forall (λ s, slash_free s = true) segs.
Proof. intros Hall. eapply Forall_impl; [exact Hall|]. by intros ? [? _]. Qed.

Lemma split_canonical dirs :
  Forall plain dirs → dirs ≠ [] →
  split_slash ("/" +:+ join_slash dirs) = "" :: dirs.
Proof.
  intros Hall Hne. destruct dirs as [|d dirs]; [done|].
  change (split_slash ("/" +:+ join_slash (d :: dirs)))
    with ("" :: split_slash (join_slash (d :: dirs))).
  by rewrite split_join by by apply Forall_plain_slash_free.
Qed.

Lemma list_ascii_of_string_app a b :
  list_ascii_of_string (a +:+ b) = list_ascii_of_string a ++ list_ascii_of_string b.
Proof.
  induction a as [|x a IH]; [reflexivity|]. rewrite append_cons. simpl. by f_equal.
Qed.

Lemma slash_free_chars s :
  slash_free s = true →
  Forall (λ c, Ascii.eqb c "/" = false) (list_ascii_of_string s).
Proof.
  induction s as [|c s IH]; simpl; [by constructor|].
  intros [Hc Hs]%andb_prop. constructor; [by apply negb_true_iff | by apply IH].
Qed.

(** The backward scan skips one last segment and stops at its separator. *)
Lemma dirname_scan_segment l k m :
  l ≠ [] → Forall (λ c, Ascii.eqb c "/" = false) l →
  dirname_scan m (l ++ "/"%char :: k) = Some k.
Proof.
  revert m. induction l as [|c l IH]; intros m Hne Hall; [done|].
  inversion Hall as [|? ? Hc Hl]; subst. simpl. rewrite Hc.
  destruct l as [|c' l]; [done|]. by apply IH.
Qed.

(** The directory of a file named by a path in normal form. *)
Lemma dirname_canonical dirs file :
  dirs ≠ [] → Forall plain dirs → plain file →
  dirname ("/" +:+ join_slash (dirs ++ [file])) = "/" +:+ join_slash dirs.
Proof.
  intros Hne Hdirs Hfile.
  rewrite join_slash_app by done.
  change (join_slash [file]) with file.
  change ("/" +:+ join_slash dirs +:+ "/" +:+ file)
    with (String "/"%char (join_slash dirs +:+ String "/"%char file)).
  unfold dirname. change (Ascii.eqb "/" "/") with true. cbv zeta.
  rewrite list_ascii_of_string_app. simpl list_ascii_of_string at 2.
  rewrite rev_app_distr. simpl rev at 1. rewrite <- app_assoc. simpl app at 2.
  rewrite dirname_scan_segment.
  - destruct dirs as [|d dirs]; [done|]. inversion Hdirs as [|? ? Hd _]; subst.
    destruct (plain_first_char _ Hd) as (c & rest & -> & _).
    assert (∃ x l, rev (list_ascii_of_string (join_slash (String c rest :: dirs)))
                   = x :: l) as (x & l & Hrev).
    { destruct (rev _) as [|x l] eqn:Hrev; [|by eauto].
      apply (f_equal (@rev _)) in Hrev. rewrite rev_involutive in Hrev.
      destruct dirs; simpl in Hrev; done. }
    rewrite Hrev, <- Hrev, rev_involutive, string_of_list_ascii_of_string. done.
  - destruct (plain_first_char _ Hfile) as (c & rest & -> & _). simpl.
    by destruct (rev (list_ascii_of_string rest)).
  - apply Forall_rev, slash_free_chars, Hfile.
Qed.

End MorePathFacts.

(** A plain segment followed by [..] leaves no trace in the normal form. *)
Lemma normalize_segments_cancel xs d ys :
  plain d →
  Path.normalize_segments false (xs ++ d :: ".." :: ys)
  = Path.normalize_segments false (xs ++ ys).
Proof.
  intros Hd. unfold Path.normalize_segments. rewrite !fold_left_app. simpl.
  rewrite (plain_step _ _ Hd). unfold Path.normalize_step at 2. simpl.
  destruct Hd as (_ & _ & _ & Hdd). apply String.eqb_neq in Hdd. by rewrite Hdd.
Qed.

(** The segments of a working directory in normal form, the root
    included. *)
Lemma normalize_after_cwd dirs rest :
  Forall plain dirs →
  Path.normalize_segments false
    (Path.split_slash ("/" +:+ Path.join_slash dirs) ++ rest)
  = Path.normalize_segments false (dirs ++ rest).
Proof.
  intros Hdirs. destruct dirs as [|d dirs]; [done|].
  by rewrite split_canonical.
Qed.

(** X6.  From a working directory in normal form, the root included, a
    name made of plain segments (no empty, [.] or [..] segment) resolves to
    the segments of the working directory followed by those of the name:
    the workspace lands inside the working directory.  As a string the
    target is the working directory, [/] and the name as typed; at the
    root it is [/] and the name. *)
Theorem plain_name_lands_in_cwd e dirs segs :
  segs ≠ [] → Forall plain dirs → Forall plain segs →
  cwd e = "/" +:+ Path.join_slash dirs →
  targetDir e (Path.join_slash segs) = "/" +:+ Path.join_slash (dirs ++ segs)
  ∧ Path.segments (targetDir e (Path.join_slash segs)) = dirs ++ segs
  ∧ (dirs ≠ [] →
     targetDir e (Path.join_slash segs) = cwd e +:+ "/" +:+ Path.join_slash segs)
  ∧ (dirs = [] →
     targetDir e (Path.join_slash segs) = cwd e +:+ Path.join_slash segs).
Proof.
  intros Hsegs Hpd Hps Hcwd.
  destruct (join_plain_relative segs Hsegs Hps) as [Hrel Hne].
  assert (Forall plain (dirs ++ segs)) as Hall by by apply Forall_app.
  assert (targetDir e (Path.join_slash segs)
          = "/" +:+ Path.join_slash (dirs ++ segs)) as Htarget.
  { unfold targetDir. rewrite resolve_relative_name; [|by rewrite Hcwd|done|done].
    rewrite Hcwd, normalize_after_cwd by done.
    destruct segs as [|seg segs]; [done|].
    rewrite split_join by by apply Forall_plain_slash_free.
    by rewrite normalize_segments_id. }
  split; [done|]. split; [|split].
  - rewrite Htarget. by apply segments_canonical.
  - intros Hdirs. rewrite Htarget, Hcwd, join_slash_app by done.
    symmetry. apply string_app_assoc.
  - intros ->. by rewrite Htarget, Hcwd.
Qed.

(** X7.  Nothing confines the target to the working directory: from a
    working directory in normal form, a name that starts with [../] resolves
    beside the working directory, under its parent. *)
Theorem parent_name_escapes_cwd e parents d segs :
  Forall plain parents → plain d → Forall plain segs →
  cwd e = "/" +:+ Path.join_slash (parents ++ [d]) →
  targetDir e ("../" +:+ Path.join_slash segs)
  = "/" +:+ Path.join_slash (parents ++ segs).
Proof.
  intros Hpp Hd Hps Hcwd.
  assert (Forall plain (parents ++ [d])) as Hall.
  { apply Forall_app. split; [done | by constructor]. }
  unfold targetDir. rewrite resolve_relative_name; [|by rewrite Hcwd|done|done].
  rewrite Hcwd, split_canonical by (by destruct parents).
  change (Path.split_slash ("../" +:+ Path.join_slash segs))
    with (".." :: Path.split_slash (Path.join_slash segs)).
  change (("" :: parents ++ [d]) ++ ".." :: Path.split_slash (Path.join_slash segs))
    with ("" :: (parents ++ [d]) ++ ".." :: Path.split_slash (Path.join_slash segs)).
  rewrite normalize_segments_leading, <- app_assoc. simpl app at 2.
  rewrite normalize_segments_cancel by done. f_equal. f_equal.
  destruct segs as [|seg segs].
  - simpl Path.split_slash. rewrite normalize_segments_trailing, app_nil_r.
    by apply normalize_segments_id.
  - rewrite split_join by by apply Forall_plain_slash_free.
    apply normalize_segments_id. by apply Forall_app.
Qed.

(** X8.  The template is looked up beside the script's directory: for a
    script [<pkg>/<bin>/<file>] named by a path in normal form,
    [__dirname] is [<pkg>/<bin>] and the template directory of an
    identifier is [<pkg>/templates/<id>], whatever the working directory. *)
Theorem template_dir_is_beside_bin e pkg bin file id :
  Forall plain pkg → plain bin → plain file → plain id →
  script_file e = "/" +:+ Path.join_slash (pkg ++ [bin; file]) →
  __dirname e = "/" +:+ Path.join_slash (pkg ++ [bin])
  ∧ templateDir e id = "/" +:+ Path.join_slash (pkg ++ ["templates"; id]).
Proof.
  intros Hpkg Hbin Hfile Hid Hscript.
  assert (Forall plain (pkg ++ [bin])) as Hall.
  { apply Forall_app. split; [done | by constructor]. }
  assert (__dirname e = "/" +:+ Path.join_slash (pkg ++ [bin])) as Hdir.
  { unfold __dirname. rewrite Hscript.
    change (pkg ++ [bin; file]) with (pkg ++ [bin] ++ [file]). rewrite app_assoc.
    apply dirname_canonical; [by destruct pkg | done | done]. }
  split; [done|].
  destruct (plain_first_char _ Hid) as (c & rest & Hid' & Hc).
  rewrite templateDir_joined; [|by rewrite Hscript|by rewrite Hid'; simpl].
  f_equal. f_equal. rewrite Hdir. unfold Path.segments.
  change ("/../templates/" +:+ id)
    with (String "/"%char (".." +:+ String "/"%char ("templates" +:+ String "/"%char id))).
  rewrite !split_slash_app, split_canonical by (by destruct pkg).
  change (Path.split_slash "..") with [".."].
  change (Path.split_slash "templates") with ["templates"].
  rewrite (split_slash_single id) by apply Hid.
  change (("" :: pkg ++ [bin]) ++ [".."] ++ ["templates"] ++ [id])
    with ("" :: (pkg ++ [bin]) ++ [".."; "templates"; id]).
  rewrite normalize_segments_leading, <- app_assoc. simpl app at 2.
  rewrite normalize_segments_cancel by done.
  apply normalize_segments_id, Forall_app. split; [done|].
  constructor; [by repeat split|]. constructor; [done | constructor].
Qed.

(** X9.  With an absolute working directory, every path handed to
    [fs.existsSync] and to [fs.copy] is absolute and in normal form,
    whatever was typed: [/] followed by segments none of which is empty,
    [.] or [..]. *)
Theorem checked_paths_are_normalized e root :
  Path.is_absolute (cwd e) = true →
  (∀ p found, In (ExistsSync p found) (run_trace e root) → canonical p)
  ∧ (∀ src dest err,
        In (Copy src dest err) (run_trace e root) → canonical src ∧ canonical dest).
Proof.
  intros Habs. split.
  - intros p found. run_cases e root; intros Hin; in_trace Hin;
      injection Hin as <- _; by apply resolve_canonical.
  - intros src dest err Hin. apply copy_endpoints in Hin as [-> [typed ->]].
    split; by apply resolve_canonical.
Qed.

(** Without a fault, a copy that throws has written nothing. *)
Lemma copy_tree_failed_no_fault src dest root root' err :
  copy_tree None src dest root = (root', Some err) → root' = root.
Proof.
  unfold copy_tree.
  destruct (fs_lookup root (Path.segments src)) as [tree|]; [|by intros [= <- _]].
  case_bool_decide; [by intros [= <- _]|].
  destruct (is_dir tree && _); [by intros [= <- _]|].
  destruct (fs_put _ tree root); [done | by intros [= <- _]].
Qed.

Lemma fs_exists_true_of_lookup root p tree :
  fs_lookup root (Path.segments p) = Some tree → fs_exists root p = true.
Proof. intros Hp. unfold fs_exists. apply bool_decide_eq_true. by eexists. Qed.

(** The run on a filesystem that holds the target. *)
Lemma run_when_target_exists e root downs typed :
  on_select (usr e) "template" = SelectEnter downs →
  on_text (usr e) "projectName" = TextEnter typed →
  fs_exists root (targetDir e (destination_name typed)) = true →
  run_status e root = 1
  ∧ run_fs e root = root
  ∧ In (Stdout (msg_exists (destination_name typed))) (run_trace e root).
Proof.
  intros Hs Ht Hex. run_cases e root; same_input; try congruence.
  repeat split. unfold preamble. simpl. tauto.
Qed.

(** What a completed copy says about the run and about the filesystem it
    leaves. *)
Lemma completed_copy_facts e root src dest :
  In (Copy src dest None) (run_trace e root) →
  ∃ downs typed tree,
    on_select (usr e) "template" = SelectEnter downs
    ∧ on_text (usr e) "projectName" = TextEnter typed
    ∧ dest = targetDir e (destination_name typed)
    ∧ fs_lookup root (Path.segments dest) = None
    ∧ fs_put (Path.segments dest) tree root = Some (run_fs e root).
Proof.
  run_cases e root; intros Hin; in_trace Hin. injection Hin as <- <-.
  apply copy_tree_completed in Hcopy as (tree & _ & _ & Hput & _).
  apply fs_exists_false in Hfound. by eexists _, _, _.
Qed.

(** X10.  When the copy throws without an I/O fault striking (the
    template directory is missing, the target lies inside it, or a regular
    file stands on the way to the target), nothing has been written: the
    run leaves the filesystem as it found it. *)
Theorem upfront_failure_writes_nothing e root src dest err :
  transfer_fault e = None →
  In (Copy src dest (Some err)) (run_trace e root) →
  run_fs e root = root.
Proof.
  intros Hfault. run_cases e root; intros Hin; in_trace Hin.
  rewrite Hfault in Hcopy. by apply copy_tree_failed_no_fault in Hcopy.
Qed.

(** X11.  Running the program again after it created a workspace, with
    the same answers from the same place, is refused: the second run finds
    the target, prints the "already exists" error, exits with status 1 and
    leaves the workspace as the first run made it. *)
Theorem rerun_is_refused e root src dest :
  In (Copy src dest None) (run_trace e root) →
  run_status e (run_fs e root) = 1
  ∧ run_fs e (run_fs e root) = run_fs e root
  ∧ ∃ typed, In (Stdout (msg_exists (destination_name typed)))
                (run_trace e (run_fs e root)).
Proof.
  intros Hin.
  apply completed_copy_facts in Hin
    as (downs & typed & tree & Hs & Ht & -> & Hnone & Hput).
  destruct (run_when_target_exists e (run_fs e root) downs typed Hs Ht)
    as (Hstatus & Hfs & Hmsg).
  { apply fs_exists_true_of_lookup with tree. by eapply fs_put_lookup. }
  split; [done|]. split; [done|]. by exists typed.
Qed.

(** X12.  A completed copy changes nothing beside the target: every path
    that is neither under the target nor on the way to it holds afterwards
    what it held before. *)
Theorem copy_changes_only_the_target e root src dest :
  In (Copy src dest None) (run_trace e root) →
  ∀ q, ¬ Path.segments dest `prefix_of` q →
       ¬ q `prefix_of` Path.segments dest →
       fs_lookup (run_fs e root) q = fs_lookup root q.
Proof.
  intros Hin q Hunder Hway.
  apply completed_copy_facts in Hin as (_ & _ & tree & _ & _ & _ & Hnone & Hput).
  by eapply fs_put_frame.
Qed.

(** Writing at a fresh place keeps every regular file as it is. *)
Lemma fs_put_keeps_files p new t t' q c :
  fs_lookup t p = None → fs_put p new t = Some t' →
  fs_lookup t q = Some (File c) → fs_lookup t' q = Some (File c).
Proof.
  intros Hnone Hput Hq.
  destruct (decide (p `prefix_of` q)) as [[r ->]|Hpq].
  { destruct (fs_lookup_prefix t p r (mk_is_Some _ _ Hq)) as [x Hx]. congruence. }
  destruct (decide (q `prefix_of` p)) as [[r ->]|Hqp].
  { destruct r as [|name r]; [rewrite app_nil_r in Hnone; congruence|].
    by rewrite (fs_put_through_file _ _ c) in Hput. }
  rewrite <- Hq. by eapply fs_put_frame.
Qed.

(** Writing at a fresh place keeps every directory a directory. *)
Lemma fs_put_keeps_dirs p new t t' q :
  fs_lookup t p = None → fs_put p new t = Some t' →
  is_dir <$> fs_lookup t q = Some true → is_dir <$> fs_lookup t' q = Some true.
Proof.
  intros Hnone Hput Hq.
  destruct (decide (p `prefix_of` q)) as [[r ->]|Hpq].
  { destruct (fs_lookup t (p ++ r)) as [n|] eqn:Hn; [|done].
    destruct (fs_lookup_prefix t p r (mk_is_Some _ _ Hn)) as [x Hx]. congruence. }
  destruct (decide (q `prefix_of` p)) as [[r ->]|Hqp].
  { destruct r as [|name r].
    - rewrite app_nil_r in Hnone. by rewrite Hnone in Hq.
    - by apply (fs_put_parents q (name :: r) new t t'). }
  rewrite <- Hq. f_equal. by eapply fs_put_frame.
Qed.

(** Whatever a copy into a fresh place does, completed or not, what was
    there stays. *)
Lemma copy_tree_keeps flt src dest root root' outcome q :
  fs_lookup root (Path.segments dest) = None →
  copy_tree flt src dest root = (root', outcome) →
  (∀ c, fs_lookup root q = Some (File c) → fs_lookup root' q = Some (File c))
  ∧ (is_dir <$> fs_lookup root q = Some true →
     is_dir <$> fs_lookup root' q = Some true).
Proof.
  intros Hnone. unfold copy_tree.
  destruct (fs_lookup root (Path.segments src)) as [tree|]; [|by intros [= <- _]].
  case_bool_decide; [by intros [= <- _]|].
  destruct (is_dir tree && _); [by intros [= <- _]|].
  destruct flt as [f|].
  - destruct (fault_written f) as [part|]; [|by intros [= <- _]].
    destruct (fs_put _ part root) as [r|] eqn:Hput; simpl; intros [= <- _]; [|done].
    split; [intros c Hc; by eapply fs_put_keeps_files
           | intros Hd; by eapply fs_put_keeps_dirs].
  - destruct (fs_put _ tree root) as [r|] eqn:Hput; intros [= <- _]; [|done].
    split; [intros c Hc; by eapply fs_put_keeps_files
           | intros Hd; by eapply fs_put_keeps_dirs].
Qed.

(** X13.  No run deletes or alters what it finds, whether it is
    cancelled, refused, completes its copy or fails in the middle of it:
    a regular file present before the run is present afterwards with the
    same bytes, and a directory is still a directory. *)
Theorem nothing_is_deleted e root q n :
  fs_lookup root q = Some n →
  (∀ c, n = File c → fs_lookup (run_fs e root) q = Some (File c))
  ∧ (is_dir n = true → is_dir <$> fs_lookup (run_fs e root) q = Some true).
Proof.
  intros Hq. run_cases e root;
    try (split; [by intros c -> | by intros Hd; rewrite Hq; simpl; rewrite Hd]).
  - apply fs_exists_false in Hfound.
    destruct (copy_tree_keeps _ _ _ _ _ _ q Hfound Hcopy) as [Hfiles Hdirs].
    split; [intros c ->; by apply Hfiles|].
    intros Hd. apply Hdirs. by rewrite Hq; simpl; rewrite Hd.
  - apply fs_exists_false in Hfound.
    destruct (copy_tree_keeps _ _ _ _ _ _ q Hfound Hcopy) as [Hfiles Hdirs].
    split; [intros c ->; by apply Hfiles|].
    intros Hd. apply Hdirs. by rewrite Hq; simpl; rewrite Hd.
Qed.

(** X14.  A run that ends with status 1 says why on its last line, on
    standard output: either the user aborted a question and the line is
    "Initialization cancelled.", or the target was found and the line is
    the "already exists" error naming the project as typed. *)
Theorem status_one_is_explained e root :
  run_status e root = 1 →
  (last (run_trace e root) = Some (Stdout msg_cancelled)
   ∧ (on_select (usr e) "template" = SelectAbort
      ∨ on_text (usr e) "projectName" = TextAbort))
  ∨ (∃ typed,
        last (run_trace e root) = Some (Stdout (msg_exists (destination_name typed)))
        ∧ on_text (usr e) "projectName" = TextEnter typed
        ∧ fs_exists root (targetDir e (destination_name typed)) = true).
Proof.
  run_cases e root; intros Hstatus; try done.
  - left. by split; [|left].
  - left. by split; [|right].
  - right. by exists typed.
Qed.

(** * The further properties on the sample installation *)

(** Plain segments that are written out. *)
Ltac plain_segments :=
  repeat match goal with
         | |- Forall plain (_ :: _) => constructor; [by repeat split|]
         | |- Forall plain [] => constructor
         end.

(** On the sample installation: the copy through the regular file [notes]
    was called and threw; the status is 0. *)
Lemma copy_attempt_means_status_zero_witness :
  let e := sample_env (SelectEnter 0) (TextEnter "notes/site") None in
  run_status e sample_root = 0.
Proof.
  intros e.
  apply (proj1 (proj2 (copy_attempt_means_status_zero e sample_root))).
  exists "/pkg/templates/content-creator", "/home/u/notes/site",
    (Some "ENOTDIR: cannot create /home/u/notes/site").
  in_sample_trace.
Defined.

(** On the sample installation: [my-workspace] is created and the next
    steps name it. *)
Lemma success_message_iff_copy_completed_witness :
  let e := sample_env (SelectEnter 0) (TextEnter "my-workspace") None in
  In (Stdout msg_created) (run_trace e sample_root)
  ∧ ∃ pre, run_trace e sample_root
           = pre ++ [ Stdout msg_created; Stdout "Next steps:";
                      Stdout "  cd my-workspace"; Stdout "  opencode" ].
Proof.
  intros e.
  assert (In (Stdout msg_created) (run_trace e sample_root)) as Hin.
  { in_sample_trace. }
  split; [exact Hin|].
  destruct (proj2 (success_message_iff_copy_completed e sample_root) Hin)
    as (typed & pre & Htyped & Htrace).
  injection Htyped as <-. by exists pre.
Defined.

(** On the sample installation: the copy through the regular file [notes]
    fails and its line is the only one on standard error. *)
Lemma stderr_only_for_failed_copy_witness :
  let e := sample_env (SelectEnter 0) (TextEnter "notes/site") None in
  ∃ src dest err,
    In (Copy src dest (Some err)) (run_trace e sample_root)
    ∧ In (Stderr (msg_failed err)) (run_trace e sample_root).
Proof.
  intros e.
  assert (In (Stderr "Failed to copy template files: ENOTDIR: cannot create /home/u/notes/site")
             (run_trace e sample_root)) as Hin.
  { in_sample_trace. }
  destruct (proj1 (stderr_only_for_failed_copy e sample_root) _ Hin)
    as (src & dest & err & Hline & Hcopy).
  exists src, dest, err. split; [exact Hcopy|]. by rewrite <- Hline.
Defined.

(** On the sample installation: [a/b] typed in [/home/u]. *)
Lemma plain_name_lands_in_cwd_witness :
  let e := sample_env (SelectEnter 0) (TextEnter "a/b") None in
  targetDir e "a/b" = "/home/u/a/b"
  ∧ Path.segments (targetDir e "a/b") = ["home"; "u"; "a"; "b"].
Proof.
  intros e.
  destruct (plain_name_lands_in_cwd e ["home"; "u"] ["a"; "b"])
    as (Htarget & Hsegs & _); [done | plain_segments | plain_segments | done |].
  by split.
Defined.

(** On the sample installation: [../elsewhere] typed in [/home/u] lands
    in [/home]. *)
Lemma parent_name_escapes_cwd_witness :
  let e := sample_env (SelectEnter 0) (TextEnter "../elsewhere") None in
  targetDir e "../elsewhere" = "/home/elsewhere".
Proof.
  intros e.
  apply (parent_name_escapes_cwd e ["home"] "u" ["elsewhere"]);
    try done; first [by repeat split | plain_segments].
Defined.

(** On the sample installation: the script is [/pkg/bin/cli.js]. *)
Lemma template_dir_is_beside_bin_witness :
  let e := sample_env (SelectEnter 0) (TextEnter "site") None in
  __dirname e = "/pkg/bin"
  ∧ templateDir e "content-creator" = "/pkg/templates/content-creator".
Proof.
  intros e.
  apply (template_dir_is_beside_bin e ["pkg"] "bin" "cli.js" "content-creator");
    try done; first [by repeat split | plain_segments].
Defined.

(** On the sample installation: the name [./a//b/../c] is checked as
    [/home/u/a/c]. *)
Lemma checked_paths_are_normalized_witness :
  let e := sample_env (SelectEnter 0) (TextEnter "./a//b/../c") None in
  In (ExistsSync "/home/u/a/c" false) (run_trace e sample_root)
  ∧ canonical "/home/u/a/c".
Proof.
  intros e.
  assert (In (ExistsSync "/home/u/a/c" false) (run_trace e sample_root)) as Hin.
  { in_sample_trace. }
  split; [exact Hin|].
  exact (proj1 (checked_paths_are_normalized e sample_root eq_refl) _ _ Hin).
Defined.

(** On the sample installation: the copy through the regular file [notes]
    leaves everything as it was. *)
Lemma upfront_failure_writes_nothing_witness :
  let e := sample_env (SelectEnter 0) (TextEnter "notes/site") None in
  run_fs e sample_root = sample_root.
Proof.
  intros e.
  apply (upfront_failure_writes_nothing e sample_root
           "/pkg/templates/content-creator" "/home/u/notes/site"
           "ENOTDIR: cannot create /home/u/notes/site"); [reflexivity|].
  in_sample_trace.
Defined.

(** On the sample installation: [my-workspace] twice. *)
Lemma rerun_is_refused_witness :
  let e := sample_env (SelectEnter 0) (TextEnter "my-workspace") None in
  run_status e sample_root = 0
  ∧ run_status e (run_fs e sample_root) = 1
  ∧ run_fs e (run_fs e sample_root) = run_fs e sample_root.
Proof.
  intros e. split; [by vm_compute|].
  destruct (rerun_is_refused e sample_root
              "/pkg/templates/content-creator" "/home/u/my-workspace")
    as (Hstatus & Hfs & _); [in_sample_trace|].
  by split.
Defined.

(** On the sample installation: creating [my-workspace] leaves the file
    [notes] alone. *)
Lemma copy_changes_only_the_target_witness :
  let e := sample_env (SelectEnter 0) (TextEnter "my-workspace") None in
  fs_lookup (run_fs e sample_root) ["home"; "u"; "notes"]
  = fs_lookup sample_root ["home"; "u"; "notes"].
Proof.
  intros e.
  apply (copy_changes_only_the_target e sample_root
           "/pkg/templates/content-creator" "/home/u/my-workspace").
  - in_sample_trace.
  - intros Hp. apply (bool_decide_pack _) in Hp. by vm_compute in Hp.
  - intros Hp. apply (bool_decide_pack _) in Hp. by vm_compute in Hp.
Defined.

(** On the sample installation: a transfer interrupted by a fault after
    it wrote an empty directory still leaves the file [notes] as it was. *)
Lemma nothing_is_deleted_witness :
  let e := sample_env (SelectEnter 0) (TextEnter "my-workspace")
             (Some {| fault_error := "ENOSPC: no space left on device";
                      fault_written := Some (Dir ∅) |}) in
  fs_lookup (run_fs e sample_root) ["home"; "u"; "notes"] = Some (File (bytes "todo"))
  ∧ fs_lookup (run_fs e sample_root) ["home"; "u"; "my-workspace"] = Some (Dir ∅).
Proof.
  intros e. split; [|by vm_compute].
  apply (proj1 (nothing_is_deleted e sample_root ["home"; "u"; "notes"]
                  (File (bytes "todo")) eq_refl)).
  reflexivity.
Defined.

(** On the sample installation: [old] exists, the run says so last. *)
Lemma status_one_is_explained_witness :
  let e := sample_env (SelectEnter 0) (TextEnter "old") None in
  last (run_trace e sample_root) = Some (Stdout (msg_exists "old")).
Proof.
  intros e.
  destruct (status_one_is_explained e sample_root) as [[_ [H|H]] | (typed & Hlast & Htyped & _)].
  - by vm_compute.
  - discriminate H.
  - discriminate H.
  - injection Htyped as <-. exact Hlast.
Defined.
